(** * FlowerShop: the florist views ([floristapp/views.py]) over the
      models of [flowerapp/models.py].

    The views are embedded shallowly: a Python [str] is its sequence of
    code points, a table of the relational store is a finite map from
    primary key to row, and a view is a computation in a small
    state-and-exception monad over the store and the list of writes
    issued against it. *)

From stdpp Require Import gmap list strings sorting.
From Stdlib Require Import ZArith NArith Lia.

Local Open Scope Z_scope.

(** ** Python strings *)

(** A [str] is a sequence of Unicode code points. *)
Abbreviation pystr := (list N).

(** [str.isspace] on one character: the code points CPython's
    [_PyUnicode_IsWhitespace] accepts. *)
Definition isspace (c : N) : bool :=
  ((9 <=? c) && (c <=? 13) || (28 <=? c) && (c <=? 32)
   || (c =? 133) || (c =? 160) || (c =? 5760)
   || (8192 <=? c) && (c <=? 8202)
   || (c =? 8232) || (c =? 8233) || (c =? 8239) || (c =? 8287)
   || (c =? 12288))%N.

Fixpoint lstrip (s : pystr) : pystr :=
  match s with
  | c :: s' => if isspace c then lstrip s' else s
  | [] => []
  end.

Definition rstrip (s : pystr) : pystr := reverse (lstrip (reverse s)).

(** [s.strip()] *)
Definition strip (s : pystr) : pystr := rstrip (lstrip s).

(** [s.startswith(p)] *)
Fixpoint startswith (s p : pystr) {struct p} : bool :=
  match p, s with
  | [], _ => true
  | _ :: _, [] => false
  | c :: p', d :: s' => (d =? c)%N && startswith s' p'
  end.

(** [s[n:]] for a non-negative [n] *)
Definition slice_from (n : nat) (s : pystr) : pystr := drop n s.

(** Decoding of a UTF-8 source literal into code points, so that the
    literals of the source can be written as they stand. *)
Fixpoint utf8_decode_bytes (fuel : nat) (bs : list N) : pystr :=
  match fuel with
  | O => []
  | S fuel' =>
    match bs with
    | [] => []
    | b0 :: r0 =>
      if (b0 <? 128)%N then b0 :: utf8_decode_bytes fuel' r0
      else if (b0 <? 224)%N then
        match r0 with
        | b1 :: r1 =>
          ((b0 - 192) * 64 + (b1 - 128))%N :: utf8_decode_bytes fuel' r1
        | _ => []
        end
      else if (b0 <? 240)%N then
        match r0 with
        | b1 :: b2 :: r2 =>
          ((b0 - 224) * 4096 + (b1 - 128) * 64 + (b2 - 128))%N
            :: utf8_decode_bytes fuel' r2
        | _ => []
        end
      else
        match r0 with
        | b1 :: b2 :: b3 :: r3 =>
          ((b0 - 240) * 262144 + (b1 - 128) * 4096 + (b2 - 128) * 64
           + (b3 - 128))%N :: utf8_decode_bytes fuel' r3
        | _ => []
        end
    end
  end.

Definition bytes_of_string (s : string) : list N :=
  map (fun a => N.of_nat (Ascii.nat_of_ascii a)) (String.list_ascii_of_string s).

Definition u (s : string) : pystr :=
  utf8_decode_bytes (String.length s) (bytes_of_string s).

(** The literal of [view_availability], ['Красноярск,']: eleven code
    points, ten Cyrillic letters and a comma. *)
Definition city_prefix : pystr :=
  [1050; 1088; 1072; 1089; 1085; 1086; 1103; 1088; 1089; 1082; 44]%N.

(** The conditional expression of the list comprehension
    [shops_addresses]:
    [address[11:].strip() if address.startswith('Красноярск,') else address]. *)
Definition address_label (address : pystr) : pystr :=
  if startswith address city_prefix
  then strip (slice_from 11 address)
  else address.

(** ** The models ([flowerapp/models.py])

    A row record holds the columns of a model other than its primary
    key; a table maps the primary key to the row. *)

(** [DecimalField(max_digits=8, decimal_places=2)]: hundredths. *)
Abbreviation Decimal := Z.
(** [DateTimeField]: an instant on the store's clock. *)
Abbreviation DateTime := Z.

Module Bouquet.
Record t := mk {
  name : pystr;
  description : pystr;
  photo : pystr;
  price : Decimal;
  height_cm : Z;
  width_cm : Z;
  is_recommended : bool
}.
End Bouquet.

Module FlowerShop.
Record t := mk {
  address : pystr;
  phone : pystr
}.
End FlowerShop.

Module FlowerShopCatalogItem.
Record t := mk {
  flower_shop_id : Z;
  bouquet_id : Z;
  availability : bool
}.
End FlowerShopCatalogItem.

Module DeliveryWindow.
Record t := mk {
  name : pystr;
  from_hour : option Z;
  to_hour : option Z
}.
End DeliveryWindow.

Module Order.
Module Status.
Inductive t :=
  created | composing | composed | delivering | delivered | cancelled.

#[global] Instance eq_dec : EqDecision t.
Proof. solve_decision. Defined.

(** The stored text of each choice. *)
Definition value (s : t) : pystr :=
  match s with
  | created => u "создан"
  | composing => u "собирается"
  | composed => u "собран"
  | delivering => u "доставляется"
  | delivered => u "доставлен"
  | cancelled => u "отменен"
  end.
End Status.

Record t := mk {
  bouquet_id : Z;
  price : Decimal;
  client_name : pystr;
  phone : pystr;
  delivery_address : pystr;
  delivery_window_id : option Z;
  email : pystr;
  paid : bool;
  comment : pystr;
  created_at : DateTime;
  composed_at : option DateTime;
  delivered_at : option DateTime;
  status : Status.t;
  florist_id : option Z;
  courier_id : option Z
}.

(** The columns, as [save(update_fields=...)] names them. *)
Inductive field :=
  | f_bouquet | f_price | f_client_name | f_phone | f_delivery_address
  | f_delivery_window | f_email | f_paid | f_comment | f_created_at
  | f_composed_at | f_delivered_at | f_status | f_florist | f_courier.

(** The row [dst] with column [f] overwritten from [src]. *)
Definition assign (src : t) (f : field) (dst : t) : t :=
  let 'mk b p cn ph da dw em pd cm ca coa dea st fl co := dst in
  match f with
  | f_bouquet => mk (bouquet_id src) p cn ph da dw em pd cm ca coa dea st fl co
  | f_price => mk b (price src) cn ph da dw em pd cm ca coa dea st fl co
  | f_client_name => mk b p (client_name src) ph da dw em pd cm ca coa dea st fl co
  | f_phone => mk b p cn (phone src) da dw em pd cm ca coa dea st fl co
  | f_delivery_address =>
    mk b p cn ph (delivery_address src) dw em pd cm ca coa dea st fl co
  | f_delivery_window =>
    mk b p cn ph da (delivery_window_id src) em pd cm ca coa dea st fl co
  | f_email => mk b p cn ph da dw (email src) pd cm ca coa dea st fl co
  | f_paid => mk b p cn ph da dw em (paid src) cm ca coa dea st fl co
  | f_comment => mk b p cn ph da dw em pd (comment src) ca coa dea st fl co
  | f_created_at => mk b p cn ph da dw em pd cm (created_at src) coa dea st fl co
  | f_composed_at => mk b p cn ph da dw em pd cm ca (composed_at src) dea st fl co
  | f_delivered_at => mk b p cn ph da dw em pd cm ca coa (delivered_at src) st fl co
  | f_status => mk b p cn ph da dw em pd cm ca coa dea (status src) fl co
  | f_florist => mk b p cn ph da dw em pd cm ca coa dea st (florist_id src) co
  | f_courier => mk b p cn ph da dw em pd cm ca coa dea st fl (courier_id src)
  end.

(** The attribute assignment [order.status = s] on the object in memory. *)
Definition set_status (s : Status.t) (o : t) : t :=
  mk (bouquet_id o) (price o) (client_name o) (phone o)
     (delivery_address o) (delivery_window_id o) (email o) (paid o)
     (comment o) (created_at o) (composed_at o) (delivered_at o) s
     (florist_id o) (courier_id o).
End Order.

(** The relational store: one table per model the views read or write. *)
Record Store := mkStore {
  bouquets : gmap Z Bouquet.t;
  flower_shops : gmap Z FlowerShop.t;
  catalog_items : gmap Z FlowerShopCatalogItem.t;
  delivery_windows : gmap Z DeliveryWindow.t;
  orders : gmap Z Order.t
}.

(** ** Requests, responses and the view monad *)

(** [request.user]: the anonymous user or a row of the user table. *)
Inductive User :=
  | AnonymousUser
  | AuthUser (username : pystr) (staff : bool).

(** [user.is_staff]; the anonymous user carries [is_staff = False]. *)
Definition is_staff (user : User) : bool :=
  match user with
  | AnonymousUser => false
  | AuthUser _ staff => staff
  end.

Record HttpRequest := mkRequest { user : User }.

(** An [Order] instance in memory: its primary key, its attributes and,
    when the query used [select_related('bouquet')], the joined bouquet. *)
Record OrderObj := mkOrderObj {
  id : Z;
  fields : Order.t;
  bouquet_cache : option Bouquet.t
}.

(** A [Bouquet] instance with its prefetched [catalog_items]. *)
Record BouquetObj := mkBouquetObj {
  bouquet_pk : Z;
  bouquet_fields : Bouquet.t;
  prefetched_catalog_items : list (Z * FlowerShopCatalogItem.t)
}.

(** The dictionary [serialize_order] returns. *)
Record OrderSummary := mkSummary {
  s_id : Z;
  s_status : Order.Status.t;
  s_bouquet_name : pystr;
  s_client_name : pystr;
  s_phone : pystr;
  s_delivery_address : pystr;
  s_delivery_window : option (Z * DeliveryWindow.t);
  s_comment : pystr;
  s_price : Decimal
}.

Inductive Context :=
  | availability_context
      (bouquets_availability : list (BouquetObj * list bool))
      (shops_addresses : list pystr)
  | orders_context (orders : list OrderSummary).

Inductive HttpResponse :=
  | HttpResponseRedirect (url : string)
  | TemplateResponse (template_name : string) (context : Context).

Inductive Exception := Http404 | DoesNotExist | ValueError | DatabaseError.

(** A write issued against the store:
    [UPDATE order SET update_fields = values WHERE id = pk]. *)
Inductive WriteQuery :=
  | UpdateOrder (pk : Z) (update_fields : list Order.field) (values : Order.t).

(** The database connection of a request: the store and the writes
    issued so far, oldest first. *)
Record Connection := mkConnection {
  db : Store;
  writes : list WriteQuery
}.

Inductive Result (A : Type) :=
  | Ok (a : A)
  | Raise (e : Exception).
Arguments Ok {A} a.
Arguments Raise {A} e.

(** A view step: runs on the connection, returns or raises; the
    connection is in autocommit mode, so what was written before an
    exception stays written. *)
Definition M (A : Type) : Type := Connection → Result A * Connection.

#[global] Instance M_ret : MRet M := λ A a c, (Ok a, c).
#[global] Instance M_bind : MBind M := λ A B f m c,
  match m c with
  | (Ok a, c') => f a c'
  | (Raise e, c') => (Raise e, c')
  end.

Definition raise {A} (e : Exception) : M A := λ c, (Raise e, c).

(** A read of the store. *)
Definition query {A} (q : Store → A) : M A := λ c, (Ok (q (db c)), c).

(** ** Sorting *)

(** A stable insertion sort on a strict comparison [lt]: an element goes
    after the elements already placed that are less than it, and before
    the first that is not. *)
Section Insertion.
Context {A : Type} (lt : A → A → bool).

Fixpoint insort (x : A) (l : list A) : list A :=
  match l with
  | [] => [x]
  | y :: l' => if lt y x then y :: insort x l' else x :: l
  end.

Definition insertion_sort (l : list A) : list A := foldr insort [] l.
End Insertion.

(** The comparison Python makes on the sort keys of [view_orders], pairs
    [(index, id)]: the first components decide unless they are equal. *)
Definition key_lt (a b : nat * Z) : bool :=
  (a.1 <? b.1)%nat || ((a.1 =? b.1)%nat && (a.2 <? b.2)).

(** [sorted(xs, key=...)] on the items paired with their keys. *)
Definition sorted {A} (decorated : list ((nat * Z) * A)) : list A :=
  snd <$> insertion_sort (λ a b, key_lt a.1 b.1) decorated.

(** [l.index(x)]: the position of the first element equal to [x]. *)
Fixpoint list_index `{EqDecision A} (x : A) (l : list A) : option nat :=
  match l with
  | [] => None
  | y :: l' => if decide (y = x) then Some O else S <$> list_index x l'
  end.

Definition index `{EqDecision A} (l : list A) (x : A) : M nat :=
  match list_index x l with
  | Some i => mret i
  | None => raise ValueError
  end.

(** ** The object-relational calls the views make *)

(** [get_object_or_404(Order, pk=order_id)] *)
Definition get_object_or_404_Order (order_id : Z) : M OrderObj :=
  λ c, match orders (db c) !! order_id with
       | Some o => (Ok (mkOrderObj order_id o None), c)
       | None => (Raise Http404, c)
       end.

(** [Order.objects.select_related('bouquet').filter(status__in=statuses)],
    evaluated: the rows in the order the store yields them, each joined
    with its bouquet (the foreign key is not nullable, so the join is an
    inner join). *)
Definition Order_objects_select_related_bouquet_filter_status_in
    (statuses : list Order.Status.t) : M (list OrderObj) :=
  query (λ s,
    omap (λ row : Z * Order.t,
            if decide (Order.status row.2 ∈ statuses)
            then b ← bouquets s !! Order.bouquet_id row.2;
                 Some (mkOrderObj row.1 row.2 (Some b))
            else None)
         (map_to_list (orders s))).

(** [order.bouquet]: the joined bouquet, or a query by the foreign key. *)
Definition order_bouquet (order : OrderObj) : M Bouquet.t :=
  match bouquet_cache order with
  | Some b => mret b
  | None =>
    λ c, match bouquets (db c) !! Order.bouquet_id (fields order) with
         | Some b => (Ok b, c)
         | None => (Raise DoesNotExist, c)
         end
  end.

(** [order.delivery_window]: [None] for a null foreign key, else a query. *)
Definition order_delivery_window (order : OrderObj)
    : M (option (Z * DeliveryWindow.t)) :=
  match Order.delivery_window_id (fields order) with
  | None => mret None
  | Some w =>
    λ c, match delivery_windows (db c) !! w with
         | Some d => (Ok (Some (w, d)), c)
         | None => (Raise DoesNotExist, c)
         end
  end.

(** [order.save(update_fields=update_fields)]: nothing for an empty list;
    otherwise one UPDATE of the listed columns of the row with the
    object's primary key, and [DatabaseError] when no row matched. *)
Definition Order_save (update_fields : list Order.field) (order : OrderObj)
    : M unit :=
  match update_fields with
  | [] => mret ()
  | _ :: _ =>
    λ c,
      let s := db c in
      let issued := writes c ++ [UpdateOrder (id order) update_fields (fields order)] in
      match orders s !! id order with
      | Some row =>
        let row' := foldr (Order.assign (fields order)) row update_fields in
        (Ok (),
         mkConnection
           (mkStore (bouquets s) (flower_shops s) (catalog_items s)
                    (delivery_windows s) (<[id order := row']> (orders s)))
           issued)
      | None => (Raise DatabaseError, mkConnection s issued)
      end
  end.

(** ** The views ([floristapp/views.py]) *)

Definition is_florist (user : User) : bool := is_staff user.

(** The decorator [user_passes_test(test_func, login_url=...)]. *)
Definition user_passes_test (test_func : User → bool) (login_url : string)
    (view_func : HttpRequest → M HttpResponse) (request : HttpRequest)
    : M HttpResponse :=
  if test_func (user request)
  then view_func request
  else mret (HttpResponseRedirect login_url).

Definition render (template_name : string) (context : Context)
    : M HttpResponse :=
  mret (TemplateResponse template_name context).

Definition serialize_order (order : OrderObj) : M OrderSummary :=
  bouquet ← order_bouquet order;
  delivery_window ← order_delivery_window order;
  mret (mkSummary
          (id order)
          (Order.status (fields order))
          (Bouquet.name bouquet)
          (Order.client_name (fields order))
          (Order.phone (fields order))
          (Order.delivery_address (fields order))
          delivery_window
          (Order.comment (fields order))
          (Order.price (fields order))).

(** The body of [view_orders], under its decorator. *)
Definition view_orders_body (request : HttpRequest) : M HttpResponse :=
  orders ← Order_objects_select_related_bouquet_filter_status_in
             [Order.Status.created; Order.Status.composing; Order.Status.composed];
  keyed ← mapM (λ x,
             i ← index [Order.Status.created; Order.Status.composing;
                        Order.Status.composed] (Order.status (fields x));
             mret ((i, id x), x)) orders;
  let sorted_orders := sorted keyed in
  serialized ← mapM serialize_order sorted_orders;
  render "orders.html" (orders_context serialized).

Definition view_orders : HttpRequest → M HttpResponse :=
  user_passes_test is_florist "login" view_orders_body.

(** [change_status] carries no decorator. *)
Definition change_status (request : HttpRequest) (order_id : Z)
    : M HttpResponse :=
  order ← get_object_or_404_Order order_id;
  let order :=
    if decide (Order.status (fields order) = Order.Status.created)
    then mkOrderObj (id order)
           (Order.set_status Order.Status.composing (fields order))
           (bouquet_cache order)
    else if decide (Order.status (fields order) = Order.Status.composing)
    then mkOrderObj (id order)
           (Order.set_status Order.Status.composed (fields order))
           (bouquet_cache order)
    else order in
  _ ← Order_save [Order.f_status] order;
  view_orders request.

Section Availability.
(** The order the store's collation puts on text: [a] sorts no later
    than [b]. *)
Variable collate_le : pystr → pystr → bool.

(** [FlowerShop.objects.order_by('address')], evaluated. *)
Definition FlowerShop_objects_order_by_address : M (list (Z * FlowerShop.t)) :=
  query (λ s,
    insertion_sort
      (λ a b, negb (collate_le (FlowerShop.address b.2) (FlowerShop.address a.2)))
      (map_to_list (flower_shops s))).

(** [list(Bouquet.objects.prefetch_related('catalog_items').order_by('name'))] *)
Definition Bouquet_objects_prefetch_related_catalog_items_order_by_name
    : M (list BouquetObj) :=
  query (λ s,
    insertion_sort
      (λ a b, negb (collate_le (Bouquet.name (bouquet_fields b))
                               (Bouquet.name (bouquet_fields a))))
      ((λ row : Z * Bouquet.t,
          mkBouquetObj row.1 row.2
            (filter (λ item : Z * FlowerShopCatalogItem.t,
                       FlowerShopCatalogItem.bouquet_id item.2 = row.1)
                    (map_to_list (catalog_items s))))
         <$> map_to_list (bouquets s))).

(** The dictionary comprehension
    [{item.flower_shop_id: item.availability for item in items}]:
    a later item overwrites an earlier one with the same key. *)
Definition availability_dict (items : list (Z * FlowerShopCatalogItem.t))
    : gmap Z bool :=
  foldl (λ d item,
           <[FlowerShopCatalogItem.flower_shop_id item.2 :=
             FlowerShopCatalogItem.availability item.2]> d)
        ∅ items.

(** The body of [view_availability], under its decorator. *)
Definition view_availability_body (request : HttpRequest) : M HttpResponse :=
  flower_shops ← FlowerShop_objects_order_by_address;
  let shops_addresses :=
    (λ flower_shop : Z * FlowerShop.t,
       address_label (FlowerShop.address flower_shop.2)) <$> flower_shops in
  bouquets ← Bouquet_objects_prefetch_related_catalog_items_order_by_name;
  let bouquets_availability :=
    (λ bouquet,
       let availability :=
         availability_dict (prefetched_catalog_items bouquet) in
       let ordered_availability :=
         (λ flower_shop : Z * FlowerShop.t,
            default false (availability !! flower_shop.1)) <$> flower_shops in
       (bouquet, ordered_availability))
      <$> bouquets in
  render "bouquets-availability.html"
         (availability_context bouquets_availability shops_addresses).

Definition view_availability : HttpRequest → M HttpResponse :=
  user_passes_test is_florist "login" view_availability_body.
End Availability.

(** ** The login form and [LoginView] *)

Module Login.
(** [request.POST] as the form [Login] reads it: the submitted value of
    each of its two fields, if the field was submitted. *)
Record data := mk {
  username : option pystr;
  password : option pystr
}.
End Login.

(** [forms.CharField(max_length=..., required=...).clean(value)]: the
    value, empty if absent, is stripped; an empty value is refused when
    the field is required; a value longer than [max_length] or holding a
    null character is refused. [None] stands for the validation error. *)
Definition CharField_clean (max_length : nat) (required : bool)
    (value : option pystr) : option pystr :=
  let value := strip (default [] value) in
  if decide (value = []) then (if required then None else Some [])
  else if (max_length <? length value)%nat then None
  else if decide (0%N ∈ value) then None
  else Some value.

(** [form.is_valid()] with [form.cleaned_data] when it holds. *)
Definition Login_is_valid (form : Login.data) : option (pystr * pystr) :=
  username ← CharField_clean 75 true (Login.username form);
  password ← CharField_clean 75 true (Login.password form);
  Some (username, password).

(** What [LoginView] answers: a redirect to a named route, or the login
    template with the form and, after a failed submission, the key
    ['ivalid']. *)
Inductive LoginResponse :=
  | LoginRedirect (to : string)
  | LoginPage (template_name : string) (form : option Login.data)
      (ivalid : bool).

Section Session.
(** [authenticate(request, username=..., password=...)] of the
    authentication backend: the user the credentials belong to, if any. *)
Variable authenticate : pystr → pystr → option User.

(** [LoginView.get] *)
Definition LoginView_get (request : HttpRequest) : LoginResponse :=
  LoginPage "florist_login.html" None false.

(** [LoginView.post]: the response and the user of the session
    afterwards, which [login(request, user)] sets. *)
Definition LoginView_post (POST : Login.data) (request : HttpRequest)
    : LoginResponse * User :=
  match Login_is_valid POST with
  | Some (username, password) =>
    match authenticate username password with
    | Some user =>
      if is_staff user
      then (LoginRedirect "floristapp:orders", user)
      else (LoginRedirect "start_page", user)
    | None => (LoginPage "florist_login.html" (Some POST) true, user request)
    end
  | None => (LoginPage "florist_login.html" (Some POST) true, user request)
  end.
End Session.

(** ** Vocabulary of the properties

    What the steps of the views compute, named so that the theorems can
    speak of it; the constraints the models declare on the store; and a
    sample store. *)

(** A step that leaves the connection as it found it, whatever it
    returns or raises. *)
Definition read_only {A} (m : M A) : Prop := ∀ c, (m c).2 = c.

(** The connection [change_status] hands to [view_orders] once the
    order is found: the row [o] of [order_id] replaced by [o'], through
    one UPDATE of the status column. *)
Definition status_written (order_id : Z) (o' : Order.t) (c : Connection)
    : Connection :=
  mkConnection
    (mkStore (bouquets (db c)) (flower_shops (db c)) (catalog_items (db c))
             (delivery_windows (db c)) (<[order_id := o']> (orders (db c))))
    (writes c ++ [UpdateOrder order_id [Order.f_status] o']).

(** The if/elif chain of [change_status], as the table it implements. *)
Definition status_after (s : Order.Status.t) : Order.Status.t :=
  match s with
  | Order.Status.created => Order.Status.composing
  | Order.Status.composing => Order.Status.composed
  | other => other
  end.

(** The order on the sort keys that [key_lt] is the strict part of. *)
Definition key_le (a b : nat * Z) : Prop := key_lt b a = false.

(** The list literal of [view_orders]. *)
Definition active_statuses : list Order.Status.t :=
  [Order.Status.created; Order.Status.composing; Order.Status.composed].

(** What the query of [view_orders] returns on the store [s]. *)
Definition active_orders (s : Store) : list OrderObj :=
  omap (λ row : Z * Order.t,
          if decide (Order.status row.2 ∈ active_statuses)
          then b ← bouquets s !! Order.bouquet_id row.2;
               Some (mkOrderObj row.1 row.2 (Some b))
          else None)
       (map_to_list (orders s)).

(** An order paired with its sort key. *)
Definition decorate (x : OrderObj) : (nat * Z) * OrderObj :=
  ((default O (list_index (Order.status (fields x)) active_statuses), id x), x).

(** What [serialize_order] returns for a joined order on the store [s]. *)
Definition summarize (s : Store) (x : OrderObj) : OrderSummary :=
  mkSummary
    (id x)
    (Order.status (fields x))
    (default [] (Bouquet.name <$> bouquet_cache x))
    (Order.client_name (fields x))
    (Order.phone (fields x))
    (Order.delivery_address (fields x))
    (w ← Order.delivery_window_id (fields x);
     d ← delivery_windows s !! w;
     Some (w, d))
    (Order.comment (fields x))
    (Order.price (fields x)).

(** What the two queries of [view_availability] return on the store. *)
Definition ordered_shops (collate_le : pystr → pystr → bool) (s : Store)
    : list (Z * FlowerShop.t) :=
  insertion_sort
    (λ a b, negb (collate_le (FlowerShop.address b.2) (FlowerShop.address a.2)))
    (map_to_list (flower_shops s)).

Definition with_catalog_items (s : Store) (row : Z * Bouquet.t) : BouquetObj :=
  mkBouquetObj row.1 row.2
    (filter (λ item : Z * FlowerShopCatalogItem.t,
               FlowerShopCatalogItem.bouquet_id item.2 = row.1)
            (map_to_list (catalog_items s))).

Definition ordered_bouquets (collate_le : pystr → pystr → bool) (s : Store)
    : list BouquetObj :=
  insertion_sort
    (λ a b, negb (collate_le (Bouquet.name (bouquet_fields b))
                             (Bouquet.name (bouquet_fields a))))
    (with_catalog_items s <$> map_to_list (bouquets s)).

(** The entry of the matrix for a bouquet and a shop. *)
Definition entry (b : BouquetObj) (shop : Z * FlowerShop.t) : bool :=
  default false (availability_dict (prefetched_catalog_items b) !! shop.1).

(** The foreign keys of [Order]: an order's bouquet and, when it has
    one, its delivery window are rows of the store. *)
Definition referential_integrity (s : Store) : Prop :=
  ∀ pk o, orders s !! pk = Some o →
    is_Some (bouquets s !! Order.bouquet_id o)
    ∧ ∀ w, Order.delivery_window_id o = Some w →
           is_Some (delivery_windows s !! w).

(** [unique_together = [['flower_shop', 'bouquet']]] on the catalog. *)
Definition catalog_unique_together (s : Store) : Prop :=
  ∀ k1 k2 i1 i2,
    catalog_items s !! k1 = Some i1 → catalog_items s !! k2 = Some i2 →
    FlowerShopCatalogItem.flower_shop_id i1 = FlowerShopCatalogItem.flower_shop_id i2 →
    FlowerShopCatalogItem.bouquet_id i1 = FlowerShopCatalogItem.bouquet_id i2 →
    k1 = k2.

(** Comparison of text code point by code point, a binary collation. *)
Fixpoint codepoint_le (a b : pystr) : bool :=
  match a, b with
  | [], _ => true
  | _ :: _, [] => false
  | x :: a', y :: b' => (x <? y)%N || ((x =? y)%N && codepoint_le a' b')
  end.

Definition sample_order (bouquet : Z) (window : option Z)
    (status : Order.Status.t) : Order.t :=
  Order.mk bouquet 150000 (u "Анна") (u "+79130000000")
           (u "Красноярск, Мира 10") window [] true [] 0 None None status
           None None.

Definition sample_store : Store :=
  mkStore
    (<[1 := Bouquet.mk (u "Розы") [] [] 150000 40 30 true]>
       (<[2 := Bouquet.mk (u "Астры") [] [] 90000 35 25 false]> ∅))
    (<[1 := FlowerShop.mk (u "Красноярск, Ленина 1") []]>
       (<[2 := FlowerShop.mk (u "Красноярская 5") []]> ∅))
    (<[1 := FlowerShopCatalogItem.mk 1 1 true]>
       (<[2 := FlowerShopCatalogItem.mk 2 2 false]> ∅))
    (<[1 := DeliveryWindow.mk (u "10-12") (Some 10) (Some 12)]> ∅)
    (<[7 := sample_order 1 None Order.Status.composing]>
       (<[3 := sample_order 2 (Some 1) Order.Status.composing]>
          (<[2 := sample_order 1 None Order.Status.composed]>
             (<[9 := sample_order 2 None Order.Status.created]>
                (<[4 := sample_order 1 None Order.Status.delivered]> ∅))))).

Definition sample : Connection := mkConnection sample_store [].

Definition florist_request : HttpRequest := mkRequest (AuthUser (u "florist") true).
Definition anonymous_request : HttpRequest := mkRequest AnonymousUser.

(** A text without whitespace at either end. *)
Definition trimmed (s : pystr) : Prop :=
  (∀ c, head s = Some c → isspace c = false)
  ∧ (∀ c, last s = Some c → isspace c = false).

(** A value [CharField_clean 75 true] lets through unchanged. *)
Definition clean_credential (s : pystr) : Prop :=
  trimmed s ∧ s ≠ [] ∧ (length s ≤ 75)%nat ∧ 0%N ∉ s.

(** A backend with one florist and one client. *)
Definition sample_backend (username password : pystr) : option User :=
  if decide (username = u "florist" ∧ password = u "secret")
  then Some (AuthUser (u "florist") true)
  else if decide (username = u "client" ∧ password = u "12345")
  then Some (AuthUser (u "client") false)
  else None.

(** A backend in which one user's password begins with a space. *)
Definition spaced_backend (username password : pystr) : option User :=
  if decide (username = u "florist" ∧ password = u " secret")
  then Some (AuthUser (u "florist") true)
  else None.

(** * Properties *)

(** ** Steps that only read *)

Lemma read_only_ret {A} (a : A) : read_only (mret a).
Proof. done. Qed.

Lemma read_only_raise {A} (e : Exception) : read_only (raise (A:=A) e).
Proof. done. Qed.

Lemma read_only_query {A} (q : Store → A) : read_only (query q).
Proof. done. Qed.

Lemma read_only_bind {A B} (m : M A) (f : A → M B) :
  read_only m → (∀ a, read_only (f a)) → read_only (m ≫= f).
Proof.
  intros Hm Hf c. unfold mbind, M_bind. specialize (Hm c).
  destruct (m c) as [[a|e] c']; simpl in *; subst c'; [apply Hf|done].
Qed.

Lemma read_only_mapM {A B} (f : A → M B) (l : list A) :
  (∀ x, read_only (f x)) → read_only (mapM f l).
Proof.
  intros Hf. induction l as [|x l IH]; simpl; [apply read_only_ret|].
  apply read_only_bind; [done|]. intros y.
  apply read_only_bind; [done|]. intros k. apply read_only_ret.
Qed.

Lemma read_only_index `{EqDecision A} (l : list A) (x : A) :
  read_only (index l x).
Proof. unfold index. by destruct (list_index x l). Qed.

Lemma read_only_order_bouquet (order : OrderObj) :
  read_only (order_bouquet order).
Proof.
  unfold order_bouquet. destruct (bouquet_cache order); [done|].
  intros c. by destruct (bouquets (db c) !! _).
Qed.

Lemma read_only_order_delivery_window (order : OrderObj) :
  read_only (order_delivery_window order).
Proof.
  unfold order_delivery_window.
  destruct (Order.delivery_window_id (fields order)); [|done].
  intros c. by destruct (delivery_windows (db c) !! _).
Qed.

Lemma read_only_serialize_order (order : OrderObj) :
  read_only (serialize_order order).
Proof.
  unfold serialize_order.
  apply read_only_bind; [apply read_only_order_bouquet|]. intros b.
  apply read_only_bind; [apply read_only_order_delivery_window|]. intros w.
  apply read_only_ret.
Qed.

Lemma read_only_view_orders_body (request : HttpRequest) :
  read_only (view_orders_body request).
Proof.
  unfold view_orders_body.
  apply read_only_bind; [apply read_only_query|]. intros os.
  apply read_only_bind.
  { apply read_only_mapM. intros x.
    apply read_only_bind; [apply read_only_index|]. intros i.
    apply read_only_ret. }
  intros keyed.
  apply read_only_bind;
    [apply read_only_mapM, read_only_serialize_order|].
  intros ss. apply read_only_ret.
Qed.

Lemma read_only_user_passes_test test_func login_url view_func request :
  read_only (view_func request) →
  read_only (user_passes_test test_func login_url view_func request).
Proof. unfold user_passes_test. by destruct (test_func _). Qed.

Lemma read_only_view_orders (request : HttpRequest) :
  read_only (view_orders request).
Proof. apply read_only_user_passes_test, read_only_view_orders_body. Qed.

Lemma read_only_view_availability collate_le (request : HttpRequest) :
  read_only (view_availability collate_le request).
Proof.
  apply read_only_user_passes_test. unfold view_availability_body.
  apply read_only_bind; [apply read_only_query|]. intros shops.
  apply read_only_bind; [apply read_only_query|]. intros bs.
  apply read_only_ret.
Qed.

(** ** The staff test of the decorated views *)

Lemma view_orders_denied (request : HttpRequest) (c : Connection) :
  is_staff (user request) = false →
  view_orders request c = (Ok (HttpResponseRedirect "login"), c).
Proof.
  intros H. unfold view_orders, user_passes_test, is_florist. by rewrite H.
Qed.

Lemma view_availability_denied collate_le (request : HttpRequest)
    (c : Connection) :
  is_staff (user request) = false →
  view_availability collate_le request c
  = (Ok (HttpResponseRedirect "login"), c).
Proof.
  intros H. unfold view_availability, user_passes_test, is_florist.
  by rewrite H.
Qed.

(** ** The address label *)

Example city_prefix_literal : u "Красноярск," = city_prefix.
Proof. reflexivity. Qed.

Lemma startswith_app (p rest : pystr) : startswith (p ++ rest) p = true.
Proof.
  induction p as [|c p IH]; simpl; [done|].
  by rewrite N.eqb_refl, IH.
Qed.

Lemma startswith_true (s p : pystr) :
  startswith s p = true → s = p ++ drop (length p) s.
Proof.
  revert s. induction p as [|c p IH]; intros s Hs; simpl in *; [done|].
  destruct s as [|d s]; [done|].
  apply andb_prop in Hs as [Hd Hs]. apply N.eqb_eq in Hd. subst d.
  simpl. f_equal. by apply IH.
Qed.

Lemma startswith_false (s p : pystr) :
  startswith s p = false → ∀ rest, s ≠ p ++ rest.
Proof.
  intros Hs rest ->. by rewrite startswith_app in Hs.
Qed.

(** ** Stripping *)

Lemma lstrip_split (s : pystr) :
  ∃ ws, s = ws ++ lstrip s ∧ Forall (λ c, isspace c = true) ws.
Proof.
  induction s as [|c s (ws & Hs & Hws)]; [by exists []|].
  cbn. destruct (isspace c) eqn:Hc.
  - exists (c :: ws). split; [cbn; by f_equal|by constructor].
  - by exists [].
Qed.

Lemma lstrip_head (s : pystr) (c : N) :
  head (lstrip s) = Some c → isspace c = false.
Proof.
  induction s as [|d s IH]; [done|]. cbn.
  destruct (isspace d) eqn:Hd; [done|]. cbn. by intros [= <-].
Qed.

Lemma lstrip_fix (s : pystr) :
  (∀ c, head s = Some c → isspace c = false) → lstrip s = s.
Proof.
  destruct s as [|c s]; [done|]. intros H. cbn. by rewrite (H c).
Qed.

Lemma lstrip_space (s : pystr) :
  Forall (λ c, isspace c = true) s → lstrip s = [].
Proof. induction 1 as [|c s Hc _ IH]; [done|]. cbn. by rewrite Hc. Qed.

Lemma rstrip_split (s : pystr) :
  ∃ ws, s = rstrip s ++ ws ∧ Forall (λ c, isspace c = true) ws.
Proof.
  destruct (lstrip_split (reverse s)) as (ws & Hs & Hws).
  exists (reverse ws). split; [|by apply Forall_reverse].
  unfold rstrip. rewrite <-reverse_app, <-Hs. by rewrite reverse_involutive.
Qed.

Lemma rstrip_last (s : pystr) (c : N) :
  last (rstrip s) = Some c → isspace c = false.
Proof. unfold rstrip. rewrite last_reverse. apply lstrip_head. Qed.

Lemma rstrip_fix (s : pystr) :
  (∀ c, last s = Some c → isspace c = false) → rstrip s = s.
Proof.
  intros H. unfold rstrip. rewrite lstrip_fix; [apply reverse_involutive|].
  intros c. rewrite head_reverse. apply H.
Qed.

Lemma rstrip_head (s : pystr) (c : N) :
  head (rstrip s) = Some c → head s = Some c.
Proof.
  destruct (rstrip_split s) as (ws & Hs & _). intros Hc.
  rewrite Hs. apply head_app_Some. by left.
Qed.

Lemma strip_trimmed (s : pystr) : trimmed (strip s).
Proof.
  split; intros c Hc.
  - apply rstrip_head in Hc. by apply lstrip_head in Hc.
  - by apply rstrip_last in Hc.
Qed.

Lemma strip_fix (s : pystr) : trimmed s → strip s = s.
Proof.
  intros [Hh Hl]. unfold strip. rewrite lstrip_fix by done. by apply rstrip_fix.
Qed.

Lemma strip_split (s : pystr) :
  ∃ l r, s = l ++ strip s ++ r
         ∧ Forall (λ c, isspace c = true) l
         ∧ Forall (λ c, isspace c = true) r.
Proof.
  destruct (lstrip_split s) as (l & Hl & Hwl).
  destruct (rstrip_split (lstrip s)) as (r & Hr & Hwr).
  exists l, r. split; [|done]. unfold strip. by rewrite <-Hr.
Qed.

Lemma strip_space (s : pystr) :
  Forall (λ c, isspace c = true) s → strip s = [].
Proof. intros H. unfold strip. by rewrite lstrip_space. Qed.

(** C9. The label of an address that starts with the literal
    ['Красноярск,'] is the remainder after the literal with its
    surrounding whitespace stripped: the remainder is whitespace, then
    the label, then whitespace, and the label neither begins nor ends
    with a whitespace character. The label of any other address, one
    that shares only a part of the literal included, is the address
    itself. *)
Theorem address_label_prefix_rule (address : pystr) :
  (∀ rest, address = city_prefix ++ rest →
     address_label address = strip rest
     ∧ ∃ l r, rest = l ++ address_label address ++ r
         ∧ Forall (λ c, isspace c = true) l
         ∧ Forall (λ c, isspace c = true) r
         ∧ trimmed (address_label address))
  ∧ ((∀ rest, address ≠ city_prefix ++ rest) → address_label address = address).
Proof.
  split.
  - intros rest ->.
    assert (address_label (city_prefix ++ rest) = strip rest) as ->.
    { unfold address_label. rewrite startswith_app. unfold slice_from.
      by rewrite (drop_app_length city_prefix rest : drop 11 _ = _). }
    split; [done|].
    destruct (strip_split rest) as (l & r & Hs & Hl & Hr).
    exists l, r. split; [done|]. split; [done|]. split; [done|].
    apply strip_trimmed.
  - intros Hno. unfold address_label.
    destruct (startswith address city_prefix) eqn:Hs; [|done].
    apply startswith_true in Hs. by destruct (Hno _ Hs).
Qed.

Lemma address_label_prefix_rule_witness :
  address_label (u "Красноярск, Ленина 1  ") = u "Ленина 1"
  ∧ (∃ l r, u " Ленина 1  " = l ++ address_label (u "Красноярск, Ленина 1  ") ++ r
       ∧ Forall (λ c, isspace c = true) l
       ∧ Forall (λ c, isspace c = true) r
       ∧ trimmed (address_label (u "Красноярск, Ленина 1  ")))
  ∧ address_label (u "Красноярская 5") = u "Красноярская 5".
Proof.
  split; [|split].
  - rewrite (proj1 (proj1 (address_label_prefix_rule (u "Красноярск, Ленина 1  "))
                      (u " Ленина 1  ") eq_refl)).
    reflexivity.
  - exact (proj2 (proj1 (address_label_prefix_rule (u "Красноярск, Ленина 1  "))
                    (u " Ленина 1  ") eq_refl)).
  - apply (proj2 (address_label_prefix_rule (u "Красноярская 5"))).
    apply startswith_false. reflexivity.
Defined.

(** ** The status workflow *)

Lemma change_status_found (request : HttpRequest) (order_id : Z)
    (c : Connection) (o : Order.t) :
  orders (db c) !! order_id = Some o →
  change_status request order_id c
  = view_orders request
      (status_written order_id
         (Order.set_status (status_after (Order.status o)) o) c).
Proof.
  intros Ho. unfold change_status, mbind, M_bind, get_object_or_404_Order.
  rewrite Ho. cbn [id fields bouquet_cache].
  destruct o as [b p cn ph da dw em pd cm ca coa dea st fl co].
  destruct st; repeat case_decide; try done;
    cbn -[lookup insert]; rewrite Ho; reflexivity.
Qed.

Lemma change_status_found_connection (request : HttpRequest) (order_id : Z)
    (c : Connection) (o : Order.t) :
  orders (db c) !! order_id = Some o →
  (change_status request order_id c).2
  = status_written order_id
      (Order.set_status (status_after (Order.status o)) o) c.
Proof.
  intros Ho. rewrite (change_status_found _ _ _ _ Ho).
  apply read_only_view_orders.
Qed.

(** C2. On an order of the store, [change_status] leaves the order with
    the status the table gives: created becomes composing, composing
    becomes composed, and composed, delivering, delivered and cancelled
    stay as they are; so the status afterwards is composing, composed or
    the status before. *)
Theorem change_status_table (request : HttpRequest) (order_id : Z)
    (c : Connection) (o : Order.t) :
  orders (db c) !! order_id = Some o →
  ∃ o', orders (db (change_status request order_id c).2) !! order_id = Some o'
    ∧ Order.status o'
      = match Order.status o with
        | Order.Status.created => Order.Status.composing
        | Order.Status.composing => Order.Status.composed
        | Order.Status.composed => Order.Status.composed
        | Order.Status.delivering => Order.Status.delivering
        | Order.Status.delivered => Order.Status.delivered
        | Order.Status.cancelled => Order.Status.cancelled
        end
    ∧ (Order.status o' = Order.Status.composing
       ∨ Order.status o' = Order.Status.composed
       ∨ Order.status o' = Order.status o).
Proof.
  intros Ho. rewrite (change_status_found_connection _ _ _ _ Ho).
  eexists. split; [apply lookup_insert_eq|].
  destruct o as [b p cn ph da dw em pd cm ca coa dea st fl co].
  destruct st; cbn; auto.
Qed.

(** C3. On an order id that is not in the store, [change_status] raises
    [Http404], and the connection afterwards is the connection before:
    the same store and no write issued. *)
Theorem change_status_not_found (request : HttpRequest) (order_id : Z)
    (c : Connection) :
  orders (db c) !! order_id = None →
  change_status request order_id c = (Raise Http404, c).
Proof.
  intros Ho. unfold change_status, mbind, M_bind, get_object_or_404_Order.
  by rewrite Ho.
Qed.

(** C4. On an order of the store, [change_status] changes at most the
    status column of that order: every other column of the order, the
    two timestamps [composed_at] and [delivered_at] among them, every
    other order and every other table are as before, and the one write
    issued names the status column only. *)
Theorem change_status_frame (request : HttpRequest) (order_id : Z)
    (c : Connection) (o : Order.t) :
  orders (db c) !! order_id = Some o →
  let c' := (change_status request order_id c).2 in
  (∃ o', orders (db c') !! order_id = Some o'
     ∧ Order.bouquet_id o' = Order.bouquet_id o
     ∧ Order.price o' = Order.price o
     ∧ Order.client_name o' = Order.client_name o
     ∧ Order.phone o' = Order.phone o
     ∧ Order.delivery_address o' = Order.delivery_address o
     ∧ Order.delivery_window_id o' = Order.delivery_window_id o
     ∧ Order.email o' = Order.email o
     ∧ Order.paid o' = Order.paid o
     ∧ Order.comment o' = Order.comment o
     ∧ Order.created_at o' = Order.created_at o
     ∧ Order.composed_at o' = Order.composed_at o
     ∧ Order.delivered_at o' = Order.delivered_at o
     ∧ Order.florist_id o' = Order.florist_id o
     ∧ Order.courier_id o' = Order.courier_id o)
  ∧ (∀ other, other ≠ order_id →
       orders (db c') !! other = orders (db c) !! other)
  ∧ bouquets (db c') = bouquets (db c)
  ∧ flower_shops (db c') = flower_shops (db c)
  ∧ catalog_items (db c') = catalog_items (db c)
  ∧ delivery_windows (db c') = delivery_windows (db c)
  ∧ ∃ values,
      writes c' = writes c ++ [UpdateOrder order_id [Order.f_status] values].
Proof.
  intros Ho c'. subst c'.
  rewrite (change_status_found_connection _ _ _ _ Ho). cbn.
  split; [|split].
  - eexists. split; [apply lookup_insert_eq|].
    destruct o; cbn. repeat split.
  - intros other Hne. by apply lookup_insert_ne.
  - repeat split. by eexists.
Qed.

(** C10. On an order of the store, [change_status] issues exactly one
    write, an UPDATE of the status column of that order, whatever the
    status: for composed, delivering, delivered and cancelled orders the
    write is issued all the same and carries the status the order
    already has. *)
Theorem change_status_always_saves (request : HttpRequest) (order_id : Z)
    (c : Connection) (o : Order.t) :
  orders (db c) !! order_id = Some o →
  ∃ values,
    writes (change_status request order_id c).2
    = writes c ++ [UpdateOrder order_id [Order.f_status] values]
    ∧ (Order.status o ∈ [Order.Status.composed; Order.Status.delivering;
                          Order.Status.delivered; Order.Status.cancelled] →
       values = o).
Proof.
  intros Ho. rewrite (change_status_found_connection _ _ _ _ Ho). cbn.
  eexists. split; [reflexivity|].
  intros Hin. destruct o as [b p cn ph da dw em pd cm ca coa dea st fl co].
  cbn in *. destruct st; cbn; try reflexivity;
    repeat (apply elem_of_cons in Hin as [Hin|Hin]; [discriminate|]);
    by apply elem_of_nil in Hin.
Qed.

(** ** Insertion sort *)

Section InsertionFacts.
Context {A : Type} (lt : A → A → bool) (R : relation A).
Hypothesis lt_true : ∀ x y, lt y x = true → R y x.
Hypothesis lt_false : ∀ x y, lt y x = false → R x y.

Lemma insort_Permutation (x : A) (l : list A) : insort lt x l ≡ₚ x :: l.
Proof.
  induction l as [|y l IH]; simpl; [done|].
  destruct (lt y x); [|done]. rewrite IH. apply Permutation_swap.
Qed.

Lemma insertion_sort_Permutation (l : list A) : insertion_sort lt l ≡ₚ l.
Proof.
  induction l as [|x l IH]; simpl; [done|].
  by rewrite insort_Permutation, IH.
Qed.

Lemma insort_HdRel (x y : A) (l : list A) :
  R y x → HdRel R y l → HdRel R y (insort lt x l).
Proof.
  intros Hyx Hl. destruct l as [|z l]; simpl; [by constructor|].
  destruct (lt z x); constructor; [|done]. by inversion Hl.
Qed.

Lemma insort_Sorted (x : A) (l : list A) :
  Sorted R l → Sorted R (insort lt x l).
Proof.
  induction 1 as [|y l Hl IH Hy]; simpl; [by repeat constructor|].
  destruct (lt y x) eqn:Hyx.
  - constructor; [done|]. apply insort_HdRel; auto.
  - repeat constructor; auto.
Qed.

Lemma insertion_sort_Sorted (l : list A) : Sorted R (insertion_sort lt l).
Proof.
  induction l as [|x l IH]; simpl; [constructor|]. by apply insort_Sorted.
Qed.
End InsertionFacts.

Lemma StronglySorted_lookup {A} (R : relation A) (l : list A) i j a b :
  StronglySorted R l → (i < j)%nat →
  l !! i = Some a → l !! j = Some b → R a b.
Proof.
  intros Hl. revert i j. induction Hl as [|x l Hl IH Hx]; intros i j Hij Hi Hj.
  - done.
  - destruct j as [|j]; [lia|]. destruct i as [|i]; simpl in *.
    + injection Hi as ->. rewrite Forall_forall in Hx.
      apply Hx. by eapply list_elem_of_lookup_2.
    + apply (IH i j); [lia|done..].
Qed.

Lemma key_lt_spec (a b : nat * Z) :
  key_lt a b = true ↔ (a.1 < b.1)%nat ∨ (a.1 = b.1 ∧ a.2 < b.2).
Proof.
  unfold key_lt. rewrite orb_true_iff, andb_true_iff.
  rewrite Nat.ltb_lt, Nat.eqb_eq, Z.ltb_lt. tauto.
Qed.

Lemma key_lt_false (a b : nat * Z) :
  key_lt a b = false ↔ (b.1 < a.1)%nat ∨ (a.1 = b.1 ∧ b.2 ≤ a.2).
Proof.
  rewrite <-not_true_iff_false, key_lt_spec. lia.
Qed.

#[local] Instance key_le_trans : Transitive key_le.
Proof.
  intros a b c. unfold key_le. rewrite !key_lt_false. lia.
Qed.

Lemma key_lt_le (a b : nat * Z) : key_lt a b = true → key_le a b.
Proof. unfold key_le. rewrite key_lt_spec, key_lt_false. lia. Qed.

(** ** The order listing *)

Lemma bind_ok {A B} (m : M A) (f : A → M B) (c c' : Connection) (a : A) :
  m c = (Ok a, c') → (m ≫= f) c = f a c'.
Proof. intros Hm. unfold mbind, M_bind. by rewrite Hm. Qed.

Lemma mapM_ok {A B} (f : A → M B) (g : A → B) (l : list A) (c : Connection) :
  (∀ x, x ∈ l → f x c = (Ok (g x), c)) →
  mapM f l c = (Ok (g <$> l), c).
Proof.
  induction l as [|x l IH]; intros Hf; [done|].
  change (mapM f (x :: l)) with (y ← f x; k ← mapM f l; mret (y :: k)).
  rewrite (bind_ok _ _ c c (g x)) by (apply Hf; constructor).
  rewrite (bind_ok _ _ c c (g <$> l)); [done|].
  apply IH. intros y Hy. apply Hf. by constructor.
Qed.

Lemma active_orders_elem (s : Store) (x : OrderObj) :
  x ∈ active_orders s ↔
  ∃ b, orders s !! id x = Some (fields x)
       ∧ Order.status (fields x) ∈ active_statuses
       ∧ bouquets s !! Order.bouquet_id (fields x) = Some b
       ∧ bouquet_cache x = Some b.
Proof.
  unfold active_orders. rewrite list_elem_of_omap. split.
  - intros [[pk o] [Hin Hx]]. apply elem_of_map_to_list in Hin.
    cbn in Hx. case_decide as Hst; [|done].
    destruct (bouquets s !! Order.bouquet_id o) as [b|] eqn:Hb; [|done].
    injection Hx as <-. by exists b.
  - intros (b & Ho & Hst & Hb & Hc). exists (id x, fields x). split.
    + by apply elem_of_map_to_list.
    + cbn. rewrite decide_True by done. rewrite Hb. cbn.
      destruct x; cbn in *. by rewrite Hc.
Qed.

Lemma active_orders_NoDup (s : Store) : NoDup (id <$> active_orders s).
Proof.
  unfold active_orders.
  pose proof (NoDup_fst_map_to_list (orders s)) as Hnd.
  induction (map_to_list (orders s)) as [|[pk o] l IH]; [constructor|].
  cbn in *. apply NoDup_cons in Hnd as [Hpk Hnd].
  destruct (decide _) as [Hst|Hst]; [|by apply IH].
  destruct (bouquets s !! Order.bouquet_id o) as [b|]; [|by apply IH].
  cbn. apply NoDup_cons. split; [|by apply IH].
  intros Hin. apply Hpk.
  apply list_elem_of_fmap in Hin as (x & -> & Hx).
  apply list_elem_of_omap in Hx as ([pk' o'] & Hin' & Hx).
  cbn in Hx. case_decide; [|done].
  destruct (bouquets s !! Order.bouquet_id o'); [|done].
  injection Hx as <-. cbn.
  apply list_elem_of_fmap. by exists (pk', o').
Qed.

Lemma index_active (st : Order.Status.t) (c : Connection) :
  st ∈ active_statuses →
  index active_statuses st c
  = (Ok (default O (list_index st active_statuses)), c).
Proof.
  intros Hst. unfold index.
  destruct st; try reflexivity;
    repeat (apply elem_of_cons in Hst as [Hst|Hst]; [discriminate|]);
    by apply elem_of_nil in Hst.
Qed.

Lemma serialize_order_ok (x : OrderObj) (c : Connection) :
  is_Some (bouquet_cache x) →
  (∀ w, Order.delivery_window_id (fields x) = Some w →
        is_Some (delivery_windows (db c) !! w)) →
  serialize_order x c = (Ok (summarize (db c) x), c).
Proof.
  intros [b Hb] Hw.
  unfold serialize_order, summarize, mbind, M_bind, order_bouquet,
    order_delivery_window.
  rewrite Hb. cbn.
  destruct (Order.delivery_window_id (fields x)) as [w|]; [|done].
  destruct (Hw w eq_refl) as [d Hd]. cbn. by rewrite Hd.
Qed.

Lemma sorted_elem {A} (l : list ((nat * Z) * A)) (x : A) :
  x ∈ sorted l ↔ x ∈ l.*2.
Proof.
  unfold sorted. by rewrite insertion_sort_Permutation.
Qed.

Lemma decorate_snd (l : list OrderObj) : (decorate <$> l).*2 = l.
Proof.
  induction l as [|x l IH]; [done|]. cbn. by f_equal.
Qed.

(** The run of the body of [view_orders] on a store whose foreign keys
    hold: it renders the orders of the query, sorted and serialized, and
    leaves the connection as it was. *)
Lemma view_orders_body_run (request : HttpRequest) (c : Connection) :
  referential_integrity (db c) →
  view_orders_body request c
  = (Ok (TemplateResponse "orders.html"
           (orders_context
              (summarize (db c) <$> sorted (decorate <$> active_orders (db c))))),
     c).
Proof.
  intros Hri. unfold view_orders_body. fold active_statuses.
  rewrite (bind_ok _ _ c c (active_orders (db c))) by done.
  rewrite (bind_ok _ _ c c (decorate <$> active_orders (db c))).
  2:{ apply mapM_ok. intros x Hx.
      apply active_orders_elem in Hx as (b & _ & Hst & _).
      by rewrite (bind_ok _ _ c c _ (index_active _ c Hst)). }
  rewrite (bind_ok _ _ c c
             (summarize (db c) <$> sorted (decorate <$> active_orders (db c))));
    [done|].
  apply mapM_ok. intros x Hx.
  apply (proj1 (sorted_elem _ _)) in Hx. rewrite decorate_snd in Hx.
  apply active_orders_elem in Hx as (b & Ho & _ & _ & Hc).
  apply serialize_order_ok; [by exists b|].
  intros w Hw. by apply (Hri _ _ Ho).
Qed.

Lemma sorted_decorate_Permutation (l : list OrderObj) :
  sorted (decorate <$> l) ≡ₚ l.
Proof.
  unfold sorted. rewrite insertion_sort_Permutation. by rewrite decorate_snd.
Qed.

Lemma view_orders_run (request : HttpRequest) (c : Connection) :
  is_staff (user request) = true →
  referential_integrity (db c) →
  view_orders request c
  = (Ok (TemplateResponse "orders.html"
           (orders_context
              (summarize (db c) <$> sorted (decorate <$> active_orders (db c))))),
     c).
Proof.
  intros Hstaff Hri. unfold view_orders, user_passes_test, is_florist.
  rewrite Hstaff. by apply view_orders_body_run.
Qed.

(** C6. For a staff caller, on a store whose foreign keys hold,
    [view_orders] renders a list with exactly one entry per order whose
    status is created, composing or composed, and no entry for any other
    order: an order of the store is listed if and only if its status is
    one of the three, and every entry is the projection of an order of
    the store. *)
Theorem view_orders_lists_active (request : HttpRequest) (c : Connection) :
  is_staff (user request) = true →
  referential_integrity (db c) →
  ∃ summaries,
    view_orders request c
    = (Ok (TemplateResponse "orders.html" (orders_context summaries)), c)
    ∧ NoDup (s_id <$> summaries)
    ∧ (∀ pk o, orders (db c) !! pk = Some o →
         (pk ∈ s_id <$> summaries ↔
          Order.status o = Order.Status.created
          ∨ Order.status o = Order.Status.composing
          ∨ Order.status o = Order.Status.composed))
    ∧ (∀ sm, sm ∈ summaries →
         ∃ o b, orders (db c) !! s_id sm = Some o
           ∧ bouquets (db c) !! Order.bouquet_id o = Some b
           ∧ s_status sm = Order.status o
           ∧ s_bouquet_name sm = Bouquet.name b
           ∧ s_client_name sm = Order.client_name o
           ∧ s_phone sm = Order.phone o
           ∧ s_delivery_address sm = Order.delivery_address o
           ∧ s_comment sm = Order.comment o
           ∧ s_price sm = Order.price o).
Proof.
  intros Hstaff Hri. eexists. split; [by apply view_orders_run|].
  assert (Hids : s_id <$> (summarize (db c) <$>
                   sorted (decorate <$> active_orders (db c)))
                 ≡ₚ id <$> active_orders (db c)).
  { rewrite <-list_fmap_compose.
    by rewrite sorted_decorate_Permutation. }
  split; [|split].
  - rewrite Hids. apply active_orders_NoDup.
  - intros pk o Ho. rewrite Hids, list_elem_of_fmap. split.
    + intros (x & -> & Hx).
      apply active_orders_elem in Hx as (b & Hx & Hst & _).
      rewrite Ho in Hx. injection Hx as ->.
      unfold active_statuses in Hst. rewrite !elem_of_cons in Hst.
      rewrite elem_of_nil in Hst. tauto.
    + intros Hst. destruct (Hri _ _ Ho) as [[b Hb] _].
      exists (mkOrderObj pk o (Some b)). split; [done|].
      apply active_orders_elem. exists b. cbn.
      repeat split; try done. unfold active_statuses.
      rewrite !elem_of_cons. tauto.
  - intros sm Hsm. apply list_elem_of_fmap in Hsm as (x & -> & Hx).
    apply (proj1 (sorted_elem _ _)) in Hx. rewrite decorate_snd in Hx.
    apply active_orders_elem in Hx as (b & Ho & _ & Hb & Hc).
    exists (fields x), b. cbn. rewrite Hc. by repeat split.
Qed.

(** C7. For a staff caller, on a store whose foreign keys hold, the list
    [view_orders] renders is sorted by the key (position of the status in
    (created, composing, composed), id): every entry has such a position,
    and an entry whose key is less than another's stands before it; so
    of two entries with the same status the one with the smaller id comes
    first, and an entry of an earlier stage comes before one of a later
    stage whatever their ids. *)
Theorem view_orders_sorted (request : HttpRequest) (c : Connection) :
  is_staff (user request) = true →
  referential_integrity (db c) →
  ∃ summaries,
    view_orders request c
    = (Ok (TemplateResponse "orders.html" (orders_context summaries)), c)
    ∧ (∀ a, a ∈ summaries →
         is_Some (list_index (s_status a) active_statuses))
    ∧ (∀ i j a b ia ib,
         summaries !! i = Some a → summaries !! j = Some b →
         list_index (s_status a) active_statuses = Some ia →
         list_index (s_status b) active_statuses = Some ib →
         (ia < ib)%nat ∨ (ia = ib ∧ s_id a < s_id b) →
         (i < j)%nat)
    ∧ (∀ i j a b,
         summaries !! i = Some a → summaries !! j = Some b →
         s_status a = s_status b → s_id a < s_id b → (i < j)%nat).
Proof.
  intros Hstaff Hri. eexists. split; [by apply view_orders_run|].
  set (L := insertion_sort (λ a b : (nat * Z) * OrderObj, key_lt a.1 b.1)
              (decorate <$> active_orders (db c))).
  assert (HL : StronglySorted (λ a b : (nat * Z) * OrderObj, key_le a.1 b.1) L).
  { apply Sorted_StronglySorted.
    - intros x y z. apply key_le_trans.
    - apply insertion_sort_Sorted.
      + intros x y. apply key_lt_le.
      + by intros x y. }
  assert (Hel : ∀ i a,
            (summarize (db c) <$> sorted (decorate <$> active_orders (db c)))
              !! i = Some a →
            ∃ x, L !! i = Some (decorate x) ∧ a = summarize (db c) x
                 ∧ Order.status (fields x) ∈ active_statuses).
  { intros i a Ha. unfold sorted in Ha. fold L in Ha.
    rewrite !list_lookup_fmap in Ha.
    destruct (L !! i) as [d|] eqn:Hd; [|done]. injection Ha as <-.
    assert (d ∈ decorate <$> active_orders (db c)) as Hin.
    { rewrite <-(insertion_sort_Permutation
                  (λ a b : (nat * Z) * OrderObj, key_lt a.1 b.1)).
      by eapply list_elem_of_lookup_2. }
    apply list_elem_of_fmap in Hin as (x & -> & Hx).
    apply active_orders_elem in Hx as (b & _ & Hst & _).
    by exists x. }
  assert (Hkey : ∀ i j a b ia ib,
            (summarize (db c) <$> sorted (decorate <$> active_orders (db c)))
              !! i = Some a →
            (summarize (db c) <$> sorted (decorate <$> active_orders (db c)))
              !! j = Some b →
            list_index (s_status a) active_statuses = Some ia →
            list_index (s_status b) active_statuses = Some ib →
            (ia < ib)%nat ∨ (ia = ib ∧ s_id a < s_id b) →
            (i < j)%nat).
  { intros i j a b ia ib Ha Hb Hia Hib Hlt.
    destruct (Hel _ _ Ha) as (x & Hx & -> & _).
    destruct (Hel _ _ Hb) as (y & Hy & -> & _).
    cbn in Hia, Hib, Hlt.
    destruct (decide (i < j)%nat) as [|Hji]; [done|exfalso].
    destruct (decide (i = j)) as [->|Hne].
    - rewrite Hx in Hy. assert (x = y) as -> by (unfold decorate in Hy; congruence).
      rewrite Hia in Hib. injection Hib as ->. lia.
    - assert (j < i)%nat as Hlt' by lia.
      pose proof (StronglySorted_lookup _ _ _ _ _ _ HL Hlt' Hy Hx) as Hle.
      unfold key_le in Hle. apply key_lt_false in Hle.
      unfold decorate in Hle. cbn in Hle. rewrite Hia, Hib in Hle.
      cbn in Hle. lia. }
  split; [|split].
  - intros a Ha. apply list_elem_of_lookup in Ha as [i Ha].
    destruct (Hel _ _ Ha) as (x & _ & -> & Hst). cbn.
    unfold active_statuses in *.
    destruct (Order.status (fields x)); cbn; try by eexists.
    all: repeat (apply elem_of_cons in Hst as [Hst|Hst]; [discriminate|]);
      by apply elem_of_nil in Hst.
  - exact Hkey.
  - intros i j a b Ha Hb Hst Hid.
    destruct (Hel _ _ Ha) as (x & _ & Hax & Hstx).
    assert (is_Some (list_index (s_status a) active_statuses)) as [ia Hia].
    { subst a. cbn. unfold active_statuses in *.
      destruct (Order.status (fields x)); cbn; try by eexists.
      all: repeat (apply elem_of_cons in Hstx as [Hstx|Hstx]; [discriminate|]);
        by apply elem_of_nil in Hstx. }
    apply (Hkey i j a b ia ia Ha Hb Hia); [by rewrite <-Hst|]. lia.
Qed.

(** ** The availability matrix *)

Lemma codepoint_le_total (a b : pystr) :
  codepoint_le a b = true ∨ codepoint_le b a = true.
Proof.
  revert b. induction a as [|x a IH]; intros [|y b]; cbn; auto.
  destruct (N.lt_trichotomy x y) as [Hlt|[->|Hgt]].
  - left. by rewrite (proj2 (N.ltb_lt _ _) Hlt).
  - rewrite N.ltb_irrefl, N.eqb_refl. cbn. apply IH.
  - right. by rewrite (proj2 (N.ltb_lt _ _) Hgt).
Qed.

Lemma codepoint_le_trans (a b c : pystr) :
  codepoint_le a b = true → codepoint_le b c = true → codepoint_le a c = true.
Proof.
  revert b c. induction a as [|x a IH]; intros [|y b] [|z c]; cbn; try done.
  rewrite !orb_true_iff, !andb_true_iff, !N.ltb_lt, !N.eqb_eq.
  intros [H1|[-> H1]] [H2|[-> H2]]; [left; lia..|].
  right. split; [done|]. by apply (IH b).
Qed.

Lemma view_availability_run collate_le (request : HttpRequest)
    (c : Connection) :
  is_staff (user request) = true →
  view_availability collate_le request c
  = (Ok (TemplateResponse "bouquets-availability.html"
           (availability_context
              ((λ b, (b, entry b <$> ordered_shops collate_le (db c)))
                 <$> ordered_bouquets collate_le (db c))
              ((λ shop : Z * FlowerShop.t,
                  address_label (FlowerShop.address shop.2))
                 <$> ordered_shops collate_le (db c)))),
     c).
Proof.
  intros Hstaff. unfold view_availability, user_passes_test, is_florist.
  rewrite Hstaff. reflexivity.
Qed.

Lemma availability_dict_snoc items item :
  availability_dict (items ++ [item])
  = <[FlowerShopCatalogItem.flower_shop_id item.2 :=
      FlowerShopCatalogItem.availability item.2]> (availability_dict items).
Proof. unfold availability_dict. by rewrite foldl_snoc. Qed.

Lemma availability_dict_None items (k : Z) :
  availability_dict items !! k = None ↔
  ∀ item, item ∈ items → FlowerShopCatalogItem.flower_shop_id item.2 ≠ k.
Proof.
  induction items as [|item items IH] using rev_ind.
  - split; [|done]. intros _ item Hin. by apply elem_of_nil in Hin.
  - rewrite availability_dict_snoc, lookup_insert_None, IH. split.
    + intros [Hno Hne] it Hit. apply elem_of_app in Hit as [Hit|Hit]; [by apply Hno|].
      apply list_elem_of_singleton in Hit. by subst it.
    + intros Hno. split.
      * intros it Hit. apply Hno, elem_of_app. by left.
      * apply Hno, elem_of_app. right. by constructor.
Qed.

Lemma availability_dict_Some items (k : Z) (v : bool) :
  availability_dict items !! k = Some v →
  ∃ item, item ∈ items
    ∧ FlowerShopCatalogItem.flower_shop_id item.2 = k
    ∧ FlowerShopCatalogItem.availability item.2 = v.
Proof.
  induction items as [|item items IH] using rev_ind; [done|].
  rewrite availability_dict_snoc, lookup_insert. case_decide as Hk.
  - intros [= <-]. exists item. split; [|done].
    apply elem_of_app. right. by constructor.
  - intros Hv. destruct (IH Hv) as (it & Hit & Hs & Ha).
    exists it. split; [|done]. apply elem_of_app. by left.
Qed.

Lemma ordered_shops_Permutation collate_le (s : Store) :
  ordered_shops collate_le s ≡ₚ map_to_list (flower_shops s).
Proof. apply insertion_sort_Permutation. Qed.

Lemma ordered_bouquets_Permutation collate_le (s : Store) :
  ordered_bouquets collate_le s
  ≡ₚ with_catalog_items s <$> map_to_list (bouquets s).
Proof. apply insertion_sort_Permutation. Qed.

Lemma ordered_bouquets_elem collate_le (s : Store) (b : BouquetObj) :
  b ∈ ordered_bouquets collate_le s →
  bouquets s !! bouquet_pk b = Some (bouquet_fields b)
  ∧ ∀ item, item ∈ prefetched_catalog_items b ↔
      catalog_items s !! item.1 = Some item.2
      ∧ FlowerShopCatalogItem.bouquet_id item.2 = bouquet_pk b.
Proof.
  rewrite ordered_bouquets_Permutation, list_elem_of_fmap.
  intros ([pk bq] & -> & Hin). apply elem_of_map_to_list in Hin.
  split; [done|]. intros [k item]. cbn.
  rewrite list_elem_of_filter, elem_of_map_to_list. cbn. tauto.
Qed.

Lemma fmap_pair_id {A B} (l : list (A * B)) :
  (λ row : A * B, (row.1, row.2)) <$> l = l.
Proof. induction l as [|[a b] l IH]; [done|]. cbn. by f_equal. Qed.

(** The entry for a bouquet of the matrix and a shop: false when the
    catalog has no row for the pair, and otherwise the availability of a
    catalog row for the pair. *)
Lemma entry_catalog collate_le (s : Store) (b : BouquetObj)
    (shop : Z * FlowerShop.t) :
  b ∈ ordered_bouquets collate_le s →
  (entry b shop = false
   ∧ ∀ k item, catalog_items s !! k = Some item →
       FlowerShopCatalogItem.flower_shop_id item = shop.1 →
       FlowerShopCatalogItem.bouquet_id item ≠ bouquet_pk b)
  ∨ (∃ k item, catalog_items s !! k = Some item
       ∧ FlowerShopCatalogItem.flower_shop_id item = shop.1
       ∧ FlowerShopCatalogItem.bouquet_id item = bouquet_pk b
       ∧ entry b shop = FlowerShopCatalogItem.availability item).
Proof.
  intros Hb. apply ordered_bouquets_elem in Hb as [_ Hitems].
  unfold entry.
  destruct (availability_dict (prefetched_catalog_items b) !! shop.1)
    as [v|] eqn:Hv.
  - right. apply availability_dict_Some in Hv as ([k item] & Hin & Hs & Ha).
    apply Hitems in Hin as [Hk Hbq]. by exists k, item.
  - left. split; [done|]. intros k item Hk Hs Hbq.
    rewrite availability_dict_None in Hv.
    apply (Hv (k, item)); [|done]. by apply Hitems.
Qed.

Section Collation.
Variable collate_le : pystr → pystr → bool.
Hypothesis collate_total :
  ∀ a b, collate_le a b = true ∨ collate_le b a = true.
Hypothesis collate_trans :
  ∀ a b c, collate_le a b = true → collate_le b c = true →
           collate_le a c = true.

Lemma order_by_StronglySorted {A} (key : A → pystr) (l : list A) :
  StronglySorted (λ a b, collate_le (key a) (key b) = true)
    (insertion_sort (λ a b, negb (collate_le (key b) (key a))) l).
Proof.
  apply Sorted_StronglySorted.
  - intros x y z. apply collate_trans.
  - apply insertion_sort_Sorted.
    + intros x y Hlt. apply negb_true_iff in Hlt.
      destruct (collate_total (key x) (key y)); congruence.
    + intros x y Hlt. by apply negb_false_iff in Hlt.
Qed.

(** C5. For a staff caller, whatever the bouquet, shop and catalog
    tables hold, [view_availability] renders a rectangular matrix
    aligned with the shops: the shops are the rows of the shop table
    in ascending order of address and the bouquets those of the
    bouquet table in ascending order of name; there is one label per
    shop, at the shop's position; and the row of every bouquet has one
    boolean per shop, the one at position [i] being the entry of that
    bouquet for the shop at position [i]: false when the catalog has no
    row for the pair, else the availability of a catalog row for it. *)
Theorem availability_matrix_rectangular (request : HttpRequest)
    (c : Connection) :
  is_staff (user request) = true →
  ∃ shops rows labels,
    FlowerShop_objects_order_by_address collate_le c = (Ok shops, c)
    ∧ view_availability collate_le request c
      = (Ok (TemplateResponse "bouquets-availability.html"
               (availability_context rows labels)), c)
    ∧ shops ≡ₚ map_to_list (flower_shops (db c))
    ∧ StronglySorted
        (λ a b : Z * FlowerShop.t,
           collate_le (FlowerShop.address a.2) (FlowerShop.address b.2) = true)
        shops
    ∧ (λ r : BouquetObj * list bool,
         (bouquet_pk r.1, bouquet_fields r.1)) <$> rows
      ≡ₚ map_to_list (bouquets (db c))
    ∧ StronglySorted
        (λ a b : BouquetObj * list bool,
           collate_le (Bouquet.name (bouquet_fields a.1))
                      (Bouquet.name (bouquet_fields b.1)) = true)
        rows
    ∧ length labels = length shops
    ∧ (∀ i shop, shops !! i = Some shop →
         labels !! i = Some (address_label (FlowerShop.address shop.2)))
    ∧ ∀ b row, (b, row) ∈ rows →
        length row = length shops
        ∧ ∀ i shop, shops !! i = Some shop →
            ∃ v, row !! i = Some v
              ∧ ((v = false
                  ∧ ∀ k item, catalog_items (db c) !! k = Some item →
                      FlowerShopCatalogItem.flower_shop_id item = shop.1 →
                      FlowerShopCatalogItem.bouquet_id item ≠ bouquet_pk b)
                 ∨ (∃ k item, catalog_items (db c) !! k = Some item
                      ∧ FlowerShopCatalogItem.flower_shop_id item = shop.1
                      ∧ FlowerShopCatalogItem.bouquet_id item = bouquet_pk b
                      ∧ v = FlowerShopCatalogItem.availability item)).
Proof.
  intros Hstaff. eexists _, _, _.
  split; [reflexivity|]. split; [by apply view_availability_run|].
  fold (ordered_shops collate_le (db c)).
  split; [apply ordered_shops_Permutation|].
  split; [apply (order_by_StronglySorted (λ a, FlowerShop.address a.2))|].
  split.
  { rewrite <-list_fmap_compose, ordered_bouquets_Permutation.
    rewrite <-list_fmap_compose. apply reflexive_eq, fmap_pair_id. }
  split.
  { apply (StronglySorted_fmap _
             (λ a b : BouquetObj,
                collate_le (Bouquet.name (bouquet_fields a))
                           (Bouquet.name (bouquet_fields b)) = true));
      [done|].
    apply (order_by_StronglySorted (λ a, Bouquet.name (bouquet_fields a))). }
  split; [by rewrite length_fmap|].
  split.
  { intros i shop Hi. by rewrite list_lookup_fmap, Hi. }
  intros b row Hin. apply list_elem_of_fmap in Hin as (b' & [= -> ->] & Hb).
  split; [by rewrite length_fmap|].
  intros i shop Hi. exists (entry b' shop).
  split; [by rewrite list_lookup_fmap, Hi|].
  destruct (entry_catalog _ _ _ shop Hb) as [[H1 H2]|(k & item & H)].
  - left. by split.
  - right. by exists k, item.
Qed.
End Collation.

(** C8. For a staff caller, on a store whose catalog has at most one row
    per shop and bouquet, every shop of the store has a position in the
    shops sequence and every bouquet a row of the matrix, and the entry
    of the row of bouquet [B] at the position of shop [S] is false when
    the catalog has no row for [S] and [B], and is the availability of
    the catalog row for [S] and [B] when there is one. *)
Theorem availability_matrix_entries (collate_le : pystr → pystr → bool)
    (request : HttpRequest) (c : Connection) :
  is_staff (user request) = true →
  catalog_unique_together (db c) →
  ∃ shops rows labels,
    FlowerShop_objects_order_by_address collate_le c = (Ok shops, c)
    ∧ view_availability collate_le request c
      = (Ok (TemplateResponse "bouquets-availability.html"
               (availability_context rows labels)), c)
    ∧ (∀ pk shop, flower_shops (db c) !! pk = Some shop →
         ∃ i, shops !! i = Some (pk, shop))
    ∧ (∀ pk bouquet, bouquets (db c) !! pk = Some bouquet →
         ∃ b row, (b, row) ∈ rows
           ∧ bouquet_pk b = pk ∧ bouquet_fields b = bouquet)
    ∧ ∀ b row i shop, (b, row) ∈ rows → shops !! i = Some shop →
        ((∀ k item, catalog_items (db c) !! k = Some item →
            ¬ (FlowerShopCatalogItem.flower_shop_id item = shop.1
               ∧ FlowerShopCatalogItem.bouquet_id item = bouquet_pk b)) →
         row !! i = Some false)
        ∧ (∀ k item, catalog_items (db c) !! k = Some item →
             FlowerShopCatalogItem.flower_shop_id item = shop.1 →
             FlowerShopCatalogItem.bouquet_id item = bouquet_pk b →
             row !! i = Some (FlowerShopCatalogItem.availability item)).
Proof.
  intros Hstaff Huniq. eexists _, _, _.
  split; [reflexivity|]. split; [by apply view_availability_run|].
  fold (ordered_shops collate_le (db c)).
  split; [|split].
  - intros pk shop Hshop. apply list_elem_of_lookup.
    rewrite ordered_shops_Permutation. by apply elem_of_map_to_list.
  - intros pk bouquet Hb.
    exists (with_catalog_items (db c) (pk, bouquet)), 
      (entry (with_catalog_items (db c) (pk, bouquet))
         <$> ordered_shops collate_le (db c)).
    split; [|done].
    apply list_elem_of_fmap. eexists. split; [reflexivity|].
    rewrite ordered_bouquets_Permutation.
    apply list_elem_of_fmap. exists (pk, bouquet). split; [done|].
    by apply elem_of_map_to_list.
  - intros b row i shop Hin Hi.
    apply list_elem_of_fmap in Hin as (b' & [= -> ->] & Hb).
    rewrite list_lookup_fmap, Hi. cbn.
    destruct (entry_catalog _ _ _ shop Hb)
      as [[Hfalse Hno]|(k & item & Hk & Hs & Hbq & Hv)].
    + split; [by rewrite Hfalse|].
      intros k item Hk Hs Hbq. by destruct (Hno _ _ Hk Hs).
    + split.
      * intros Hno. by destruct (Hno _ _ Hk).
      * intros k' item' Hk' Hs' Hbq'.
        assert (k' = k) as -> by (apply (Huniq _ _ _ _ Hk' Hk); congruence).
        rewrite Hk in Hk'. injection Hk' as <-. by rewrite Hv.
Qed.

Lemma sample_referential_integrity : referential_integrity (db sample).
Proof.
  apply map_Forall_to_list. vm_compute.
  repeat (apply Forall_cons; split;
            [split; [by eexists
                    |intros w Hw; simplify_eq; by eexists]|]).
  constructor.
Qed.

Lemma sample_catalog_unique_together : catalog_unique_together (db sample).
Proof.
  intros k1 k2 i1 i2 H1 H2 Hs Hb.
  apply elem_of_map_to_list in H1, H2.
  let l := eval vm_compute in (map_to_list (catalog_items (db sample))) in
  assert (map_to_list (catalog_items (db sample)) = l) as Hl
    by (vm_compute; reflexivity).
  rewrite Hl in H1, H2.
  repeat match goal with
         | H : _ ∈ _ :: _ |- _ => apply elem_of_cons in H as [H|H]
         | H : _ ∈ [] |- _ => by apply elem_of_nil in H
         end; by simplify_eq.
Qed.

(** ** The staff test and [change_status] *)

(** A caller who fails the staff test and names an order of the store gets the
    redirect of [view_orders], after the status was written. *)
Lemma change_status_denied (request : HttpRequest) (order_id : Z)
    (c : Connection) (o : Order.t) :
  is_staff (user request) = false →
  orders (db c) !! order_id = Some o →
  change_status request order_id c
  = (Ok (HttpResponseRedirect "login"),
     status_written order_id
       (Order.set_status (status_after (Order.status o)) o) c).
Proof.
  intros Hstaff Ho. rewrite (change_status_found _ _ _ _ Ho).
  by apply view_orders_denied.
Qed.

(** C1, at a failing input: an anonymous caller runs [change_status] on
    the created order 9 of the sample store. The response is the redirect
    to the login endpoint, but the order is composing afterwards and one
    write was issued; on an id that is not in the store the same caller
    gets [Http404], not the redirect. *)
Lemma change_status_anonymous_writes :
  is_florist (user anonymous_request) = false
  ∧ Order.status <$> orders (db sample) !! 9 = Some Order.Status.created
  ∧ (change_status anonymous_request 9 sample).1
    = Ok (HttpResponseRedirect "login")
  ∧ Order.status <$> orders (db (change_status anonymous_request 9 sample).2) !! 9
    = Some Order.Status.composing
  ∧ writes (change_status anonymous_request 9 sample).2
    = [UpdateOrder 9 [Order.f_status]
         (sample_order 2 None Order.Status.composing)]
  ∧ (change_status anonymous_request 9 sample).2 ≠ sample
  ∧ change_status anonymous_request 5 sample = (Raise Http404, sample).
Proof.
  assert (Ho : orders (db sample) !! 9
               = Some (sample_order 2 None Order.Status.created))
    by reflexivity.
  rewrite (change_status_denied anonymous_request 9 sample _ eq_refl Ho).
  do 5 (split; [reflexivity|]). split.
  - cbn [snd]. intros Heq. apply (f_equal writes) in Heq. discriminate Heq.
  - reflexivity.
Qed.

(** ** The theorems at the sample store *)

Lemma change_status_table_witness :
  ∃ o', orders (db (change_status florist_request 9 sample).2) !! 9 = Some o'
    ∧ Order.status o' = Order.Status.composing.
Proof.
  destruct (change_status_table florist_request 9 sample
              (sample_order 2 None Order.Status.created) eq_refl)
    as (o' & Ho' & Hst & _).
  exists o'. split; [exact Ho'|exact Hst].
Defined.

Lemma change_status_not_found_witness :
  orders (db sample) !! 5 = None
  ∧ change_status florist_request 5 sample = (Raise Http404, sample).
Proof.
  split; [reflexivity|].
  apply (change_status_not_found florist_request 5 sample). reflexivity.
Defined.

Lemma change_status_frame_witness :
  ∃ values,
    writes (change_status florist_request 3 sample).2
    = writes sample ++ [UpdateOrder 3 [Order.f_status] values].
Proof.
  exact (proj2 (proj2 (proj2 (proj2 (proj2 (proj2
           (change_status_frame florist_request 3 sample
              (sample_order 2 (Some 1) Order.Status.composing) eq_refl))))))).
Defined.

Lemma change_status_always_saves_witness :
  ∃ values,
    writes (change_status florist_request 2 sample).2
    = writes sample ++ [UpdateOrder 2 [Order.f_status] values]
    ∧ values = sample_order 1 None Order.Status.composed.
Proof.
  destruct (change_status_always_saves florist_request 2 sample
              (sample_order 1 None Order.Status.composed) eq_refl)
    as (values & Hw & Hv).
  exists values. split; [exact Hw|].
  apply Hv. constructor.
Defined.

Lemma view_orders_lists_active_witness :
  is_staff (user florist_request) = true
  ∧ ∃ summaries,
      view_orders florist_request sample
      = (Ok (TemplateResponse "orders.html" (orders_context summaries)), sample)
      ∧ NoDup (s_id <$> summaries).
Proof.
  split; [reflexivity|].
  destruct (view_orders_lists_active florist_request sample eq_refl
              sample_referential_integrity) as (summaries & Hrun & Hnd & _).
  exists summaries. split; [exact Hrun|exact Hnd].
Defined.

Lemma view_orders_sorted_witness :
  is_staff (user florist_request) = true
  ∧ ∃ summaries,
      view_orders florist_request sample
      = (Ok (TemplateResponse "orders.html" (orders_context summaries)), sample)
      ∧ ∀ a, a ∈ summaries →
          is_Some (list_index (s_status a) active_statuses).
Proof.
  split; [reflexivity|].
  destruct (view_orders_sorted florist_request sample eq_refl
              sample_referential_integrity) as (summaries & Hrun & Hpos & _).
  exists summaries. split; [exact Hrun|exact Hpos].
Defined.

Lemma availability_matrix_rectangular_witness :
  is_staff (user florist_request) = true
  ∧ ∃ shops rows labels,
      FlowerShop_objects_order_by_address codepoint_le sample = (Ok shops, sample)
      ∧ view_availability codepoint_le florist_request sample
        = (Ok (TemplateResponse "bouquets-availability.html"
                 (availability_context rows labels)), sample)
      ∧ ∀ b row, (b, row) ∈ rows → length row = length shops.
Proof.
  split; [reflexivity|].
  destruct (availability_matrix_rectangular codepoint_le
              codepoint_le_total codepoint_le_trans
              florist_request sample eq_refl)
    as (shops & rows & labels & Hq & Hrun & _ & _ & _ & _ & _ & _ & Hrows).
  exists shops, rows, labels. split; [exact Hq|]. split; [exact Hrun|].
  intros b row Hin. exact (proj1 (Hrows b row Hin)).
Defined.

Lemma availability_matrix_entries_witness :
  is_staff (user florist_request) = true
  ∧ ∃ shops rows labels,
      FlowerShop_objects_order_by_address codepoint_le sample = (Ok shops, sample)
      ∧ view_availability codepoint_le florist_request sample
        = (Ok (TemplateResponse "bouquets-availability.html"
                 (availability_context rows labels)), sample)
      ∧ ∀ pk shop, flower_shops (db sample) !! pk = Some shop →
          ∃ i, shops !! i = Some (pk, shop).
Proof.
  split; [reflexivity|].
  destruct (availability_matrix_entries codepoint_le florist_request sample
              eq_refl sample_catalog_unique_together)
    as (shops & rows & labels & Hq & Hrun & Hshops & _).
  exists shops, rows, labels. split; [exact Hq|]. split; [exact Hrun|exact Hshops].
Defined.

(** ** The views run on the sample store *)

Example view_orders_sample :
  match (view_orders florist_request sample).1 with
  | Ok (TemplateResponse _ (orders_context summaries)) =>
    (λ sm, (s_id sm, s_status sm)) <$> summaries
  | _ => []
  end
  = [(9, Order.Status.created); (3, Order.Status.composing);
     (7, Order.Status.composing); (2, Order.Status.composed)].
Proof. vm_compute. reflexivity. Qed.

Example view_availability_sample :
  match (view_availability codepoint_le florist_request sample).1 with
  | Ok (TemplateResponse _ (availability_context rows labels)) =>
    (labels, (λ r : BouquetObj * list bool,
                (Bouquet.name (bouquet_fields r.1), r.2)) <$> rows)
  | _ => ([], [])
  end
  = ([u "Ленина 1"; u "Красноярская 5"],
     [(u "Астры", [false; false]); (u "Розы", [true; false])]).
Proof. vm_compute. reflexivity. Qed.

Example change_status_twice_composed :
  (change_status florist_request 2
     (change_status florist_request 2 sample).2).2.(db)
  = (change_status florist_request 2 sample).2.(db).
Proof. vm_compute. reflexivity. Qed.

(** * Further properties of the views *)

(** ** [change_status], call after call *)

(** The connection after [change_status], by cases on the lookup. *)
Lemma change_status_connection (request : HttpRequest) (order_id : Z)
    (c : Connection) :
  (change_status request order_id c).2
  = match orders (db c) !! order_id with
    | Some o =>
      status_written order_id
        (Order.set_status (status_after (Order.status o)) o) c
    | None => c
    end.
Proof.
  destruct (orders (db c) !! order_id) as [o|] eqn:Ho.
  - by apply change_status_found_connection.
  - unfold change_status, mbind, M_bind, get_object_or_404_Order.
    by rewrite Ho.
Qed.

Lemma set_status_same (o : Order.t) : Order.set_status (Order.status o) o = o.
Proof. by destruct o. Qed.

Lemma set_status_set_status (s s' : Order.Status.t) (o : Order.t) :
  Order.set_status s (Order.set_status s' o) = Order.set_status s o.
Proof. by destruct o. Qed.

Lemma status_set_status (s : Order.Status.t) (o : Order.t) :
  Order.status (Order.set_status s o) = s.
Proof. by destruct o. Qed.

Lemma store_eq (s s' : Store) :
  bouquets s = bouquets s' → flower_shops s = flower_shops s' →
  catalog_items s = catalog_items s' →
  delivery_windows s = delivery_windows s' → orders s = orders s' →
  s = s'.
Proof. destruct s, s'. cbn. by intros -> -> -> -> ->. Qed.

Lemma status_written_same_db (order_id : Z) (o : Order.t) (c : Connection) :
  orders (db c) !! order_id = Some o →
  db (status_written order_id o c) = db c.
Proof.
  intros Ho. apply store_eq; try done. cbn. by apply insert_id.
Qed.

(** X1. An order that is neither created nor composing is written back as it
    is: the store after [change_status] equals the store before, column
    for column and row for row. *)
Theorem change_status_noop_store (request : HttpRequest) (order_id : Z)
    (c : Connection) (o : Order.t) :
  orders (db c) !! order_id = Some o →
  Order.status o ≠ Order.Status.created →
  Order.status o ≠ Order.Status.composing →
  db (change_status request order_id c).2 = db c.
Proof.
  intros Ho Hcr Hco. rewrite change_status_connection, Ho.
  assert (status_after (Order.status o) = Order.status o) as ->
    by (by destruct (Order.status o)).
  rewrite set_status_same. by apply status_written_same_db.
Qed.

Lemma change_status_noop_store_witness :
  db (change_status anonymous_request 4 sample).2 = db sample.
Proof.
  apply (change_status_noop_store anonymous_request 4 sample
           (sample_order 1 None Order.Status.delivered));
    [reflexivity|discriminate|discriminate].
Defined.

Lemma status_after_twice (s : Order.Status.t) :
  status_after (status_after (status_after s)) = status_after (status_after s).
Proof. by destruct s. Qed.

Lemma status_written_lookup (order_id : Z) (o : Order.t) (c : Connection) :
  orders (db (status_written order_id o c)) !! order_id = Some o.
Proof. apply lookup_insert_eq. Qed.

(** X2. Two calls of [change_status] on an order bring a created, composing
    or composed order to composed, and from the second call on a further
    call does not change the store, whoever the callers are and whether
    or not the order exists. *)
Theorem change_status_saturates (r1 r2 r3 : HttpRequest) (order_id : Z)
    (c : Connection) :
  let c2 := (change_status r2 order_id (change_status r1 order_id c).2).2 in
  db (change_status r3 order_id c2).2 = db c2
  ∧ ∀ o, orders (db c) !! order_id = Some o →
      Order.status o ∈ active_statuses →
      Order.status <$> orders (db c2) !! order_id = Some Order.Status.composed.
Proof.
  cbn zeta. rewrite (change_status_connection r1).
  destruct (orders (db c) !! order_id) as [o|] eqn:Ho.
  - rewrite (change_status_connection r2), status_written_lookup.
    rewrite (change_status_connection r3), status_written_lookup.
    rewrite !status_set_status, !set_status_set_status, status_after_twice.
    split.
    + rewrite <-(set_status_set_status _ (status_after (Order.status o))) at 1.
      apply status_written_same_db.
      rewrite status_written_lookup. by rewrite set_status_set_status.
    + intros o' [= <-] Hst. cbn. rewrite ?status_set_status. f_equal.
      unfold active_statuses in Hst. rewrite !elem_of_cons, elem_of_nil in Hst.
      destruct Hst as [->|[->|[->|[]]]]; reflexivity.
  - rewrite (change_status_connection r2), Ho.
    rewrite (change_status_connection r3), Ho. split; [done|]. by intros o.
Qed.

(** X3. The store after [change_status] does not depend on the caller: the
    request is first looked at by the nested [view_orders], after the
    write. *)
Theorem change_status_effect_any_caller (r1 r2 : HttpRequest) (order_id : Z)
    (c : Connection) :
  (change_status r1 order_id c).2 = (change_status r2 order_id c).2.
Proof. by rewrite !change_status_connection. Qed.

(** X4. The decorated views never change the connection: whoever calls, and
    also when the view raises, the store and the list of issued writes
    afterwards are those before. *)
Theorem decorated_views_never_write (collate_le : pystr → pystr → bool)
    (request : HttpRequest) (c : Connection) :
  (view_orders request c).2 = c
  ∧ (view_availability collate_le request c).2 = c.
Proof.
  split; [apply read_only_view_orders|apply read_only_view_availability].
Qed.

(** ** [change_status] and the constraints of the store *)

Lemma status_written_referential_integrity (order_id : Z) (o : Order.t)
    (s : Order.Status.t) (c : Connection) :
  orders (db c) !! order_id = Some o →
  referential_integrity (db c) →
  referential_integrity (db (status_written order_id (Order.set_status s o) c)).
Proof.
  intros Ho Hri pk o' Ho'. cbn in *.
  destruct (decide (pk = order_id)) as [->|Hne].
  - rewrite lookup_insert_eq in Ho'. injection Ho' as <-.
    destruct o. cbn. apply (Hri _ _ Ho).
  - rewrite lookup_insert_ne in Ho' by done. apply (Hri _ _ Ho').
Qed.

Lemma change_status_referential_integrity (request : HttpRequest)
    (order_id : Z) (c : Connection) :
  referential_integrity (db c) →
  referential_integrity (db (change_status request order_id c).2).
Proof.
  intros Hri. rewrite change_status_connection.
  destruct (orders (db c) !! order_id) as [o|] eqn:Ho; [|done].
  by apply status_written_referential_integrity.
Qed.

(** X5. [change_status] keeps the constraints of the store: if every order
    points at an existing bouquet and delivery window before the call, it
    does so after it, and a catalog with at most one row per shop and
    bouquet stays such a catalog; for every caller and every order id. *)
Theorem change_status_keeps_constraints (request : HttpRequest)
    (order_id : Z) (c : Connection) :
  referential_integrity (db c) →
  catalog_unique_together (db c) →
  referential_integrity (db (change_status request order_id c).2)
  ∧ catalog_unique_together (db (change_status request order_id c).2).
Proof.
  intros Hri Hu. split; [by apply change_status_referential_integrity|].
  rewrite change_status_connection.
  by destruct (orders (db c) !! order_id).
Qed.

Lemma change_status_keeps_constraints_witness :
  referential_integrity (db (change_status anonymous_request 9 sample).2)
  ∧ catalog_unique_together (db (change_status anonymous_request 9 sample).2).
Proof.
  exact (change_status_keeps_constraints anonymous_request 9 sample
           sample_referential_integrity sample_catalog_unique_together).
Defined.

(** ** [change_status] and the listing it returns *)

Lemma listing_ids (s : Store) :
  s_id <$> (summarize s <$> sorted (decorate <$> active_orders s))
  ≡ₚ id <$> active_orders s.
Proof.
  rewrite <-list_fmap_compose. by rewrite sorted_decorate_Permutation.
Qed.

Lemma active_ids_elem (s : Store) (pk : Z) :
  pk ∈ id <$> active_orders s ↔
  ∃ o, orders s !! pk = Some o
       ∧ Order.status o ∈ active_statuses
       ∧ is_Some (bouquets s !! Order.bouquet_id o).
Proof.
  rewrite list_elem_of_fmap. split.
  - intros (x & -> & Hx). apply active_orders_elem in Hx as (b & Ho & Hst & Hb & _).
    exists (fields x). by eauto.
  - intros (o & Ho & Hst & [b Hb]). exists (mkOrderObj pk o (Some b)).
    split; [done|]. apply active_orders_elem. by exists b.
Qed.

Lemma status_after_active (s : Order.Status.t) :
  status_after s ∈ active_statuses ↔ s ∈ active_statuses.
Proof.
  unfold active_statuses. rewrite !elem_of_cons, !elem_of_nil.
  destruct s; cbn; split; intros H;
    repeat (destruct H as [H|H]; try discriminate H); tauto.
Qed.

Lemma active_ids_status_written (order_id : Z) (o : Order.t) (c : Connection) :
  orders (db c) !! order_id = Some o →
  id <$> active_orders
           (db (status_written order_id
                  (Order.set_status (status_after (Order.status o)) o) c))
  ≡ₚ id <$> active_orders (db c).
Proof.
  intros Ho. apply NoDup_Permutation; [apply active_orders_NoDup..|].
  intros pk. rewrite !active_ids_elem. cbn.
  destruct (decide (pk = order_id)) as [->|Hne].
  - rewrite lookup_insert_eq, Ho. split.
    + intros (o' & [= <-] & Hst & Hb). exists o.
      rewrite status_set_status, status_after_active in Hst.
      split; [done|]. split; [done|]. by destruct o.
    + intros (o' & [= <-] & Hst & Hb). eexists. split; [done|].
      rewrite status_set_status, status_after_active.
      split; [done|]. by destruct o.
  - by rewrite lookup_insert_ne.
Qed.

(** The run of [change_status] for a staff caller on an order of a store
    whose foreign keys hold: the listing of the store after the write. *)
Lemma change_status_run (request : HttpRequest) (order_id : Z)
    (c : Connection) (o : Order.t) :
  is_staff (user request) = true →
  referential_integrity (db c) →
  orders (db c) !! order_id = Some o →
  let c' := status_written order_id
              (Order.set_status (status_after (Order.status o)) o) c in
  change_status request order_id c
  = (Ok (TemplateResponse "orders.html"
           (orders_context
              (summarize (db c') <$> sorted (decorate <$> active_orders (db c'))))),
     c').
Proof.
  intros Hstaff Hri Ho c'. rewrite (change_status_found _ _ _ _ Ho).
  apply view_orders_run; [done|].
  by apply status_written_referential_integrity.
Qed.

(** X6. For a staff caller, [change_status] on an order of the store answers
    with a listing of the same orders as [view_orders] gave before the
    call: no order enters or leaves the florist's queue through it. *)
Theorem change_status_keeps_queue (request : HttpRequest) (order_id : Z)
    (c : Connection) (o : Order.t) :
  is_staff (user request) = true →
  referential_integrity (db c) →
  orders (db c) !! order_id = Some o →
  ∃ before after,
    (view_orders request c).1
    = Ok (TemplateResponse "orders.html" (orders_context before))
    ∧ (change_status request order_id c).1
      = Ok (TemplateResponse "orders.html" (orders_context after))
    ∧ s_id <$> after ≡ₚ s_id <$> before.
Proof.
  intros Hstaff Hri Ho. eexists _, _.
  rewrite (view_orders_run _ _ Hstaff Hri).
  rewrite (change_status_run _ _ _ _ Hstaff Hri Ho).
  split; [reflexivity|]. split; [reflexivity|].
  rewrite !listing_ids. by apply active_ids_status_written.
Qed.

Lemma change_status_keeps_queue_witness :
  ∃ before after,
    (view_orders florist_request sample).1
    = Ok (TemplateResponse "orders.html" (orders_context before))
    ∧ (change_status florist_request 9 sample).1
      = Ok (TemplateResponse "orders.html" (orders_context after))
    ∧ s_id <$> after ≡ₚ s_id <$> before.
Proof.
  exact (change_status_keeps_queue florist_request 9 sample
           (sample_order 2 None Order.Status.created)
           eq_refl sample_referential_integrity eq_refl).
Defined.

(** X7. For a staff caller, the listing [change_status] answers with is that
    of the store after the write: a created order is listed as composing
    and a composing or composed one as composed, and an order in a later
    status is not listed. *)
Theorem change_status_lists_new_status (request : HttpRequest) (order_id : Z)
    (c : Connection) (o : Order.t) :
  is_staff (user request) = true →
  referential_integrity (db c) →
  orders (db c) !! order_id = Some o →
  ∃ after,
    (change_status request order_id c).1
    = Ok (TemplateResponse "orders.html" (orders_context after))
    ∧ (Order.status o ∈ active_statuses →
       ∃ sm, sm ∈ after ∧ s_id sm = order_id
         ∧ s_status sm
           = if decide (Order.status o = Order.Status.created)
             then Order.Status.composing else Order.Status.composed)
    ∧ (Order.status o ∉ active_statuses → order_id ∉ s_id <$> after).
Proof.
  intros Hstaff Hri Ho. eexists.
  rewrite (change_status_run _ _ _ _ Hstaff Hri Ho).
  split; [reflexivity|].
  set (o' := Order.set_status (status_after (Order.status o)) o).
  set (c' := status_written order_id o' c).
  assert (Ho' : orders (db c') !! order_id = Some o')
    by apply status_written_lookup.
  split.
  - intros Hst. destruct (Hri _ _ Ho) as [[b Hb] _].
    exists (summarize (db c') (mkOrderObj order_id o' (Some b))).
    split; [|split; [done|]].
    + apply list_elem_of_fmap_2, sorted_elem. rewrite decorate_snd.
      apply active_orders_elem. exists b. cbn [id fields bouquet_cache].
      split; [done|]. unfold o'. rewrite status_set_status.
      split; [by apply status_after_active|].
      split; [|done]. by destruct o.
    + cbn. unfold o'. rewrite ?status_set_status.
      unfold active_statuses in Hst. rewrite !elem_of_cons, elem_of_nil in Hst.
      destruct Hst as [->|[->|[->|[]]]]; reflexivity.
  - intros Hst Hin. apply Hst.
    rewrite listing_ids in Hin. apply active_ids_elem in Hin as (o'' & Ho'' & Hst'' & _).
    rewrite Ho' in Ho''. injection Ho'' as <-.
    unfold o' in Hst''. by rewrite status_set_status, status_after_active in Hst''.
Qed.

Lemma change_status_lists_new_status_witness :
  ∃ after,
    (change_status florist_request 9 sample).1
    = Ok (TemplateResponse "orders.html" (orders_context after))
    ∧ ∃ sm, sm ∈ after ∧ s_id sm = 9
        ∧ s_status sm = Order.Status.composing.
Proof.
  destruct (change_status_lists_new_status florist_request 9 sample
              (sample_order 2 None Order.Status.created)
              eq_refl sample_referential_integrity eq_refl)
    as (after & Hrun & Hin & _).
  exists after. split; [exact Hrun|].
  apply Hin. constructor.
Defined.

(** ** [serialize_order] *)

(** X8. [serialize_order] does not read the email, the paid flag, the three
    timestamps, the florist or the courier of an order: replacing them
    changes nothing in what it returns. *)
Theorem serialize_order_hides_fields (x : OrderObj) (c : Connection)
    (email : pystr) (paid : bool) (created_at : DateTime)
    (composed_at delivered_at : option DateTime)
    (florist_id courier_id : option Z) :
  serialize_order
    (mkOrderObj (id x)
       (Order.mk (Order.bouquet_id (fields x)) (Order.price (fields x))
          (Order.client_name (fields x)) (Order.phone (fields x))
          (Order.delivery_address (fields x))
          (Order.delivery_window_id (fields x)) email paid
          (Order.comment (fields x)) created_at composed_at delivered_at
          (Order.status (fields x)) florist_id courier_id)
       (bouquet_cache x)) c
  = serialize_order x c.
Proof. destruct x as [pk [] cache]. reflexivity. Qed.

(** X9. The lookups of [serialize_order]. An order fetched without
    [select_related] is serialized as the joined order is, when its
    bouquet is a row of the store, and raises [DoesNotExist] when it is
    not; an order without a delivery window is serialized with
    [None] there, and one whose window is not a row of the store raises
    [DoesNotExist]. In no case is the connection changed. *)
Theorem serialize_order_lookups (pk : Z) (o : Order.t) (c : Connection) :
  (∀ b, bouquets (db c) !! Order.bouquet_id o = Some b →
     serialize_order (mkOrderObj pk o None) c
     = serialize_order (mkOrderObj pk o (Some b)) c)
  ∧ (bouquets (db c) !! Order.bouquet_id o = None →
     serialize_order (mkOrderObj pk o None) c = (Raise DoesNotExist, c))
  ∧ (∀ b, Order.delivery_window_id o = None →
     ∃ sm, serialize_order (mkOrderObj pk o (Some b)) c = (Ok sm, c)
       ∧ s_delivery_window sm = None)
  ∧ (∀ b w, Order.delivery_window_id o = Some w →
     delivery_windows (db c) !! w = None →
     serialize_order (mkOrderObj pk o (Some b)) c = (Raise DoesNotExist, c)).
Proof.
  unfold serialize_order, mbind, M_bind, order_bouquet, order_delivery_window.
  cbn [bouquet_cache fields]. repeat split.
  - intros b Hb. by rewrite Hb.
  - intros Hb. by rewrite Hb.
  - intros b Hw. rewrite Hw. cbn. by eexists.
  - intros b w Hw Hd. rewrite Hw. cbn. by rewrite Hd.
Qed.

Lemma serialize_order_lookups_witness :
  serialize_order
    (mkOrderObj 9 (sample_order 2 None Order.Status.created) None) sample
  = serialize_order
      (mkOrderObj 9 (sample_order 2 None Order.Status.created)
         (Some (Bouquet.mk (u "Астры") [] [] 90000 35 25 false))) sample
  ∧ serialize_order
      (mkOrderObj 9 (sample_order 5 None Order.Status.created) None) sample
    = (Raise DoesNotExist, sample).
Proof.
  split.
  - apply (proj1 (serialize_order_lookups 9
                    (sample_order 2 None Order.Status.created) sample)).
    reflexivity.
  - apply (proj1 (proj2 (serialize_order_lookups 9
                    (sample_order 5 None Order.Status.created) sample))).
    reflexivity.
Defined.

(** ** The stored texts of the statuses *)

(** X10. The six statuses have six different texts, each within the fifteen
    characters of the [status] column: a status read back from the store
    is the status written. *)
Theorem status_value_fits (s s' : Order.Status.t) :
  (length (Order.Status.value s) ≤ 15)%nat
  ∧ (Order.Status.value s = Order.Status.value s' → s = s').
Proof.
  split.
  - destruct s; vm_compute; lia.
  - destruct s, s'; intros H; try reflexivity; vm_compute in H; discriminate H.
Qed.

Lemma status_value_fits_witness :
  Order.Status.composing = Order.Status.composing.
Proof.
  apply (proj2 (status_value_fits Order.Status.composing
                  Order.Status.composing)).
  reflexivity.
Defined.

(** ** The shop labels *)

(** X11. The label of an address that starts with the city is the remainder
    without the whitespace around it and nothing else: the remainder is
    whitespace, then the label, then whitespace, and the label neither
    begins nor ends with whitespace. *)
Theorem address_label_trims (rest : pystr) :
  ∃ l r, rest = l ++ address_label (city_prefix ++ rest) ++ r
    ∧ Forall (λ c, isspace c = true) l
    ∧ Forall (λ c, isspace c = true) r
    ∧ trimmed (address_label (city_prefix ++ rest)).
Proof.
  assert (address_label (city_prefix ++ rest) = strip rest) as ->.
  { unfold address_label. rewrite startswith_app. unfold slice_from.
    by rewrite (drop_app_length city_prefix rest : drop 11 _ = _). }
  destruct (strip_split rest) as (l & r & Hs & Hl & Hr).
  exists l, r. split; [done|]. split; [done|]. split; [done|].
  apply strip_trimmed.
Qed.

(** X12. A label is never longer than the address it comes from, and the
    address that is the city and whitespace only has the empty label. *)
Theorem address_label_short (address : pystr) :
  (length (address_label address) ≤ length address)%nat
  ∧ ∀ ws, Forall (λ c, isspace c = true) ws →
      address = city_prefix ++ ws → address_label address = [].
Proof.
  split.
  - unfold address_label. destruct (startswith address city_prefix) eqn:Hs; [|done].
    destruct (strip_split (slice_from 11 address)) as (l & r & Heq & _).
    apply (f_equal length) in Heq. unfold slice_from in *.
    rewrite !length_app, length_drop in Heq. lia.
  - intros ws Hws ->. unfold address_label. rewrite startswith_app.
    unfold slice_from.
    rewrite (drop_app_length city_prefix ws : drop 11 _ = _).
    by apply strip_space.
Qed.

Lemma address_label_short_witness :
  address_label (u "Красноярск,  ") = [].
Proof.
  apply (proj2 (address_label_short (u "Красноярск,  ")) (u "  ")).
  - repeat constructor.
  - reflexivity.
Defined.

(** ** [LoginView] *)

Lemma CharField_clean_blank (n : nat) (value : option pystr) :
  Forall (λ c, isspace c = true) (default [] value) →
  CharField_clean n true value = None.
Proof.
  intros H. unfold CharField_clean. rewrite (strip_space _ H).
  by rewrite decide_True.
Qed.

Lemma CharField_clean_long (n : nat) (value : option pystr) :
  (n < length (strip (default [] value)))%nat →
  CharField_clean n true value = None.
Proof.
  intros H. unfold CharField_clean. case_decide; [done|].
  by rewrite (proj2 (Nat.ltb_lt _ _) H).
Qed.

Lemma CharField_clean_Some (value : option pystr) (a : pystr) :
  CharField_clean 75 true value = Some a →
  a = strip (default [] value) ∧ clean_credential a.
Proof.
  unfold CharField_clean. case_decide as Hnil; [done|].
  destruct (75 <? length (strip (default [] value)))%nat eqn:Hlen; [done|].
  case_decide as Hnul; [done|]. intros [= <-].
  apply Nat.ltb_ge in Hlen. split; [done|].
  split; [apply strip_trimmed|done].
Qed.

Lemma CharField_clean_fix (a : pystr) :
  clean_credential a → CharField_clean 75 true (Some a) = Some a.
Proof.
  intros (Ht & Hnil & Hlen & Hnul). unfold CharField_clean.
  change (default [] (Some a)) with a. rewrite (strip_fix _ Ht). rewrite decide_False by done.
  rewrite (proj2 (Nat.ltb_ge _ _) Hlen). by rewrite decide_False.
Qed.

(** X13. A submission whose user name or password is missing, is whitespace
    only, or is longer than 75 characters once stripped is answered with
    the login page marked invalid; the backend is not asked and the user
    of the session stays who it was. *)
Theorem LoginView_post_rejects (authenticate : pystr → pystr → option User)
    (POST : Login.data) (request : HttpRequest) :
  (Forall (λ c, isspace c = true) (default [] (Login.username POST))
   ∨ (75 < length (strip (default [] (Login.username POST))))%nat
   ∨ Forall (λ c, isspace c = true) (default [] (Login.password POST))
   ∨ (75 < length (strip (default [] (Login.password POST))))%nat) →
  LoginView_post authenticate POST request
  = (LoginPage "florist_login.html" (Some POST) true, user request).
Proof.
  intros H. unfold LoginView_post.
  assert (Login_is_valid POST = None) as ->; [|done].
  unfold Login_is_valid.
  destruct H as [H|[H|[H|H]]].
  - by rewrite (CharField_clean_blank 75 (Login.username POST) H).
  - by rewrite (CharField_clean_long 75 (Login.username POST) H).
  - rewrite (CharField_clean_blank 75 (Login.password POST) H).
    by destruct (CharField_clean 75 true (Login.username POST)).
  - rewrite (CharField_clean_long 75 (Login.password POST) H).
    by destruct (CharField_clean 75 true (Login.username POST)).
Qed.

Lemma LoginView_post_rejects_witness :
  LoginView_post sample_backend (Login.mk (Some (u "florist")) None)
    anonymous_request
  = (LoginPage "florist_login.html"
       (Some (Login.mk (Some (u "florist")) None)) true,
     AnonymousUser).
Proof.
  apply (LoginView_post_rejects sample_backend
           (Login.mk (Some (u "florist")) None) anonymous_request).
  right. right. left. constructor.
Defined.

(** X14. The three ways [LoginView.post] ends: a redirect to the orders for a
    user the backend knows and who is staff, a redirect to the start page
    for a user the backend knows and who is not, each with that user in
    the session, or the login page marked invalid with the session as it
    was. The backend is asked with stripped, non-empty credentials of at
    most 75 characters. *)
Theorem LoginView_post_routes (authenticate : pystr → pystr → option User)
    (POST : Login.data) (request : HttpRequest) :
  let r := LoginView_post authenticate POST request in
  (r.1 = LoginRedirect "floristapp:orders" ∧ is_staff r.2 = true
   ∧ ∃ a b, clean_credential a ∧ clean_credential b
            ∧ authenticate a b = Some r.2)
  ∨ (r.1 = LoginRedirect "start_page" ∧ is_staff r.2 = false
     ∧ ∃ a b, clean_credential a ∧ clean_credential b
              ∧ authenticate a b = Some r.2)
  ∨ (r.1 = LoginPage "florist_login.html" (Some POST) true
     ∧ r.2 = user request).
Proof.
  cbn zeta. unfold LoginView_post, Login_is_valid.
  destruct (CharField_clean 75 true (Login.username POST)) as [a|] eqn:Ha;
    [|by right; right].
  destruct (CharField_clean 75 true (Login.password POST)) as [b|] eqn:Hb;
    [|by right; right].
  cbn. apply CharField_clean_Some in Ha as [_ Ha], Hb as [_ Hb].
  destruct (authenticate a b) as [usr|] eqn:Hauth; [|by right; right].
  destruct (is_staff usr) eqn:Hstaff.
  - left. cbn. split; [done|]. split; [done|]. by exists a, b.
  - right. left. cbn. split; [done|]. split; [done|]. by exists a, b.
Qed.

Lemma LoginView_post_routes_aux (authenticate : pystr → pystr → option User)
    (POST : Login.data) (request : HttpRequest) :
  ((LoginView_post authenticate POST request).1
     = LoginRedirect "floristapp:orders"
   ∧ is_staff (LoginView_post authenticate POST request).2 = true)
  ∨ ((LoginView_post authenticate POST request).1 = LoginRedirect "start_page"
     ∧ is_staff (LoginView_post authenticate POST request).2 = false)
  ∨ (LoginView_post authenticate POST request).1
    = LoginPage "florist_login.html" (Some POST) true.
Proof.
  unfold LoginView_post.
  destruct (Login_is_valid POST) as [[a b]|]; [|by right; right].
  destruct (authenticate a b) as [usr|]; [|by right; right].
  destruct (is_staff usr) eqn:Hstaff; [by left|by right; left].
Qed.

(** X15. [LoginView] and the staff test agree: a user sent to the orders by
    the login is shown the orders by [view_orders], and a user sent to
    the start page would be sent back to the login by it. *)
Theorem LoginView_post_then_view_orders
    (authenticate : pystr → pystr → option User) (POST : Login.data)
    (request : HttpRequest) (c : Connection) :
  referential_integrity (db c) →
  let r := LoginView_post authenticate POST request in
  (r.1 = LoginRedirect "floristapp:orders" →
   ∃ summaries,
     view_orders (mkRequest r.2) c
     = (Ok (TemplateResponse "orders.html" (orders_context summaries)), c))
  ∧ (r.1 = LoginRedirect "start_page" →
     view_orders (mkRequest r.2) c = (Ok (HttpResponseRedirect "login"), c)).
Proof.
  intros Hri r. subst r.
  destruct (LoginView_post_routes_aux authenticate POST request)
    as [[Hr Hs]|[[Hr Hs]|Hr]]; rewrite Hr.
  - split; [|done]. intros _. eexists. by apply view_orders_run.
  - split; [done|]. intros _. by apply view_orders_denied.
  - by split.
Qed.

Lemma LoginView_post_then_view_orders_witness :
  (LoginView_post sample_backend
     (Login.mk (Some (u "florist")) (Some (u "secret"))) anonymous_request).1
  = LoginRedirect "floristapp:orders"
  ∧ ∃ summaries,
      view_orders
        (mkRequest
           (LoginView_post sample_backend
              (Login.mk (Some (u "florist")) (Some (u "secret")))
              anonymous_request).2) sample
      = (Ok (TemplateResponse "orders.html" (orders_context summaries)), sample).
Proof.
  split; [reflexivity|].
  apply (proj1 (LoginView_post_then_view_orders sample_backend
                  (Login.mk (Some (u "florist")) (Some (u "secret")))
                  anonymous_request sample sample_referential_integrity)).
  reflexivity.
Defined.

(** X16. The backend only ever sees cleaned credentials: two backends that
    agree on stripped, non-empty texts of at most 75 characters without
    null character make [LoginView.post] behave alike on every
    submission. A user whose password begins or ends with whitespace
    therefore cannot log in through this form. *)
Theorem LoginView_post_cleaned_credentials
    (auth1 auth2 : pystr → pystr → option User) :
  (∀ a b, clean_credential a → clean_credential b → auth1 a b = auth2 a b) →
  ∀ POST request,
    LoginView_post auth1 POST request = LoginView_post auth2 POST request.
Proof.
  intros Hagree POST request. unfold LoginView_post, Login_is_valid.
  destruct (CharField_clean 75 true (Login.username POST)) as [a|] eqn:Ha;
    [|done].
  destruct (CharField_clean 75 true (Login.password POST)) as [b|] eqn:Hb;
    [|done].
  cbn. apply CharField_clean_Some in Ha as [_ Ha], Hb as [_ Hb].
  by rewrite (Hagree a b Ha Hb).
Qed.

Lemma spaced_backend_unreachable (a b : pystr) :
  clean_credential a → clean_credential b → spaced_backend a b = None.
Proof.
  intros _ [[Hhead _] _]. unfold spaced_backend.
  case_decide as H; [|done]. destruct H as [_ ->].
  by specialize (Hhead 32%N eq_refl).
Qed.

Lemma LoginView_post_cleaned_credentials_witness :
  LoginView_post spaced_backend
    (Login.mk (Some (u "florist")) (Some (u " secret"))) anonymous_request
  = (LoginPage "florist_login.html"
       (Some (Login.mk (Some (u "florist")) (Some (u " secret")))) true,
     AnonymousUser).
Proof.
  rewrite (LoginView_post_cleaned_credentials spaced_backend (λ _ _, None)
             spaced_backend_unreachable).
  reflexivity.
Defined.

(** X17. What the form lets through it hands on unchanged: for credentials
    that are already clean, the backend decides, and its user is the
    user of the session. *)
Theorem LoginView_post_accepts (authenticate : pystr → pystr → option User)
    (a b : pystr) (usr : User) (request : HttpRequest) :
  clean_credential a → clean_credential b →
  authenticate a b = Some usr →
  LoginView_post authenticate (Login.mk (Some a) (Some b)) request
  = (LoginRedirect (if is_staff usr then "floristapp:orders" else "start_page"),
     usr).
Proof.
  intros Ha Hb Hauth. unfold LoginView_post, Login_is_valid. cbn.
  rewrite (CharField_clean_fix _ Ha), (CharField_clean_fix _ Hb). cbn.
  rewrite Hauth. by destruct (is_staff usr).
Qed.

Lemma sample_clean_credential (s : pystr) :
  s = u "client" ∨ s = u "12345" → clean_credential s.
Proof.
  intros [->| ->]; (split; [split; intros c [= <-]; reflexivity|]);
    (split; [discriminate|]); (split; [vm_compute; lia|]);
    intros Hin; repeat (apply elem_of_cons in Hin as [Hin|Hin]; [discriminate|]);
    by apply elem_of_nil in Hin.
Qed.

Lemma LoginView_post_accepts_witness :
  LoginView_post sample_backend
    (Login.mk (Some (u "client")) (Some (u "12345"))) anonymous_request
  = (LoginRedirect "start_page", AuthUser (u "client") false).
Proof.
  apply (LoginView_post_accepts sample_backend (u "client") (u "12345")
           (AuthUser (u "client") false) anonymous_request).
  - apply sample_clean_credential. by left.
  - apply sample_clean_credential. by right.
  - reflexivity.
Defined.

(** ** More on the listing of [view_orders] *)

(** X18. For a staff caller, on a store whose foreign keys hold, every entry
    of the listing carries the delivery window of its order: [None] for
    an order without one, and otherwise the key and the row of the window
    the order points at. *)
Theorem view_orders_delivery_windows (request : HttpRequest) (c : Connection) :
  is_staff (user request) = true →
  referential_integrity (db c) →
  ∃ summaries,
    view_orders request c
    = (Ok (TemplateResponse "orders.html" (orders_context summaries)), c)
    ∧ ∀ sm, sm ∈ summaries →
        ∃ o, orders (db c) !! s_id sm = Some o
          ∧ match Order.delivery_window_id o with
            | None => s_delivery_window sm = None
            | Some w =>
              ∃ d, delivery_windows (db c) !! w = Some d
                   ∧ s_delivery_window sm = Some (w, d)
            end.
Proof.
  intros Hstaff Hri. eexists. split; [by apply view_orders_run|].
  intros sm Hsm. apply list_elem_of_fmap in Hsm as (x & -> & Hx).
  apply (proj1 (sorted_elem _ _)) in Hx. rewrite decorate_snd in Hx.
  apply active_orders_elem in Hx as (b & Ho & _ & _ & _).
  exists (fields x). split; [done|]. cbn.
  destruct (Order.delivery_window_id (fields x)) as [w|] eqn:Hw; [|done].
  destruct (proj2 (Hri _ _ Ho) w Hw) as [d Hd]. exists d. cbn. by rewrite Hd.
Qed.

Lemma view_orders_delivery_windows_witness :
  ∃ summaries,
    view_orders florist_request sample
    = (Ok (TemplateResponse "orders.html" (orders_context summaries)), sample)
    ∧ ∀ sm, sm ∈ summaries → is_Some (orders (db sample) !! s_id sm).
Proof.
  destruct (view_orders_delivery_windows florist_request sample eq_refl
              sample_referential_integrity) as (summaries & Hrun & Hall).
  exists summaries. split; [exact Hrun|].
  intros sm Hsm. destruct (Hall sm Hsm) as (o & Ho & _).
  exists o. exact Ho.
Defined.

Lemma NoDup_fmap_elem_inj {A B} (f : A → B) (l : list A) (x y : A) :
  NoDup (f <$> l) → x ∈ l → y ∈ l → f x = f y → x = y.
Proof.
  induction l as [|z l IH]; cbn; intros Hnd Hx Hy Hf.
  - by apply elem_of_nil in Hx.
  - apply NoDup_cons in Hnd as [Hz Hnd].
    apply elem_of_cons in Hx as [->|Hx]; apply elem_of_cons in Hy as [->|Hy].
    + done.
    + destruct Hz. rewrite Hf. by apply list_elem_of_fmap_2.
    + destruct Hz. rewrite <-Hf. by apply list_elem_of_fmap_2.
    + by apply IH.
Qed.

(** X19. The order of the listing does not depend on the order in which the
    store yields the rows: orders with different ids, handed to the sort
    of [view_orders] in any two orders, come out in the same order. *)
Theorem sorted_orders_any_row_order (l1 l2 : list OrderObj) :
  NoDup (id <$> l1) →
  l1 ≡ₚ l2 →
  sorted (decorate <$> l1) = sorted (decorate <$> l2).
Proof.
  intros Hnd Hperm. unfold sorted. f_equal.
  assert (Hsorted : ∀ l : list OrderObj,
            StronglySorted (λ a b : (nat * Z) * OrderObj, key_le a.1 b.1)
              (insertion_sort (λ a b, key_lt a.1 b.1) (decorate <$> l))).
  { intros l. apply Sorted_StronglySorted.
    - intros x y z. apply key_le_trans.
    - apply insertion_sort_Sorted; [intros x y; apply key_lt_le|by intros x y]. }
  apply (StronglySorted_unique_strong
           (λ a b : (nat * Z) * OrderObj, key_le a.1 b.1));
    [|apply Hsorted..|].
  - intros d1 d2 Hd1 Hd2 H12 H21.
    rewrite insertion_sort_Permutation in Hd1, Hd2.
    apply list_elem_of_fmap in Hd1 as (x & -> & Hx).
    apply list_elem_of_fmap in Hd2 as (y & -> & Hy).
    rewrite <-Hperm in Hy.
    unfold key_le in H12, H21. apply key_lt_false in H12, H21. cbn in H12, H21.
    assert (x = y) as ->; [|done].
    apply (NoDup_fmap_elem_inj id l1); [done|done|done|lia].
  - rewrite !insertion_sort_Permutation. by rewrite Hperm.
Qed.

Lemma sorted_orders_any_row_order_witness :
  sorted (decorate <$> active_orders (db sample))
  = sorted (decorate <$> reverse (active_orders (db sample))).
Proof.
  apply (sorted_orders_any_row_order (active_orders (db sample))
           (reverse (active_orders (db sample)))).
  - apply active_orders_NoDup.
  - symmetry. apply reverse_Permutation.
Defined.

Lemma change_status_saturates_witness :
  Order.status
    <$> orders (db (change_status anonymous_request 9
                      (change_status florist_request 9 sample).2).2) !! 9
  = Some Order.Status.composed.
Proof.
  apply (proj2 (change_status_saturates florist_request anonymous_request
                  florist_request 9 sample)
           (sample_order 2 None Order.Status.created)).
  - reflexivity.
  - constructor.
Defined.
